(** * Cursor-Augment gateway: a shallow embedding of the request pipeline

  The development follows the TypeScript sources:
  - [lib/redis]   : key records, quota accounting, settings and profiles;
  - [api/proxy]   : the forwarding handler (authentication, quota,
                    routing, model policy, prompt injection, relay);
  - [api/admin/settings/save] : the administrative settings save.

  Modelling conventions.
  - JavaScript strings are [string]; a character is one code unit below 256.
  - JavaScript numbers that the code only counts with are integers ([Z]).
  - JSON payloads whose shape the code inspects at run time are [value]s;
    objects are finite maps from property names to values.
  - Redis is a typed store: access-key records, the settings singleton and
    the profile table.  Store operations do not fail.
  - The wall clock is an input: every function that reads [new Date()]
    takes the reading as an argument.
  - Of the relay, the rewriting of the response text is modelled; the
    upstream call itself, its timeout and its failures are not. *)

From Stdlib Require Import Ascii.
From stdpp Require Import gmap strings list pretty.

Set Warnings "-register-all".
Open Scope Z_scope.

(** ** JavaScript string primitives *)

Module JsString.

Fixpoint startsWith (s p : string) : bool :=
  match p, s with
  | EmptyString, _ => true
  | String c p', String d s' => if decide (c = d) then startsWith s' p' else false
  | String _ _, EmptyString => false
  end.

Fixpoint take (n : nat) (s : string) : string :=
  match n, s with
  | S n', String c s' => String c (take n' s')
  | _, _ => EmptyString
  end.

Fixpoint drop (n : nat) (s : string) : string :=
  match n, s with
  | S n', String _ s' => drop n' s'
  | _, _ => s
  end.

(** [s.endsWith(p)] *)
Definition endsWith (s p : string) : bool :=
  bool_decide (String.length p ≤ String.length s)%nat
  && bool_decide (drop (String.length s - String.length p) s = p).

(** [s.slice(0, -1)] *)
Definition slice_0_m1 (s : string) : string :=
  take (String.length s - 1) s.

(** [s.substring(0, n)] *)
Definition substring_0 (n : nat) (s : string) : string := take n s.

(** [s.includes(p)] *)
Fixpoint includes (s p : string) : bool :=
  startsWith s p ||
  match s with
  | EmptyString => false
  | String _ s' => includes s' p
  end.

(** [s.replace(p, r)] with a string pattern: the first occurrence only.
    The replacement strings used in the sources hold no [$]. *)
Fixpoint replace (s p r : string) : string :=
  if startsWith s p then r +:+ drop (String.length p) s
  else match s with
       | EmptyString => EmptyString
       | String c s' => String c (replace s' p r)
       end.

(** [s.replace(/p/g, r)] for a pattern [p] that is a plain literal and a
    replacement without [$]: scan from the left; at a match emit [r] and
    skip the matched characters, so that matches do not overlap.  [skip]
    counts the characters of the current match still to be passed over. *)
Fixpoint replaceAll_go (skip : nat) (s p r : string) : string :=
  match s with
  | EmptyString => EmptyString
  | String c s' =>
      match skip with
      | S k => replaceAll_go k s' p r
      | O =>
          if startsWith s p
          then r +:+ replaceAll_go (String.length p - 1) s' p r
          else String c (replaceAll_go O s' p r)
      end
  end.

Definition replaceAll (s p r : string) : string :=
  match p with
  | EmptyString => s
  | _ => replaceAll_go O s p r
  end.

(** White space of [String.prototype.trim] among the code units below
    256: TAB, LF, VT, FF, CR, SPACE and NBSP. *)
Definition is_white (c : ascii) : bool :=
  match c with
  | "009" | "010" | "011" | "012" | "013" | " " | "160" => true
  | _ => false
  end%char.

Fixpoint trimStart (s : string) : string :=
  match s with
  | String c s' => if is_white c then trimStart s' else s
  | EmptyString => EmptyString
  end.

Definition trimEnd (s : string) : string :=
  String.rev (trimStart (String.rev s)).

Definition trim (s : string) : string := trimEnd (trimStart s).

(** Characters with a meaning of their own in a regular expression source,
    and in a replacement string. *)
Definition is_meta (c : ascii) : bool :=
  match c with
  | "\" | "^" | "$" | "." | "|" | "?" | "*" | "+"
  | "(" | ")" | "[" | "]" | "{" | "}" => true
  | _ => false
  end%char.

Fixpoint all_chars (f : ascii → bool) (s : string) : bool :=
  match s with
  | EmptyString => true
  | String c s' => f c && all_chars f s'
  end.

Definition plain_pattern (p : string) : bool :=
  all_chars (λ c, negb (is_meta c)) p && negb (bool_decide (p = "")).

Definition plain_replacement (r : string) : bool :=
  all_chars (λ c, negb (bool_decide (c = "$"%char))) r.

End JsString.

(** ** JSON values and the JavaScript operations applied to them *)

Module Json.

Inductive value :=
  | VUndefined
  | VNull
  | VBool (b : bool)
  | VNum (n : Z)
  | VStr (s : string)
  | VArr (l : list value)
  | VObj (m : gmap string value).

(** A computation that may throw; the handler's [catch] turns a thrown
    error into a 500 reply carrying the error's message. *)
Inductive result (A : Type) :=
  | Ok (a : A)
  | Throw (msg : string).
Arguments Ok {A} a.
Arguments Throw {A} msg.

Definition bind {A B} (m : result A) (k : A → result B) : result B :=
  match m with
  | Ok a => k a
  | Throw e => Throw e
  end.

(** [v.k] for the property names the handler reads ([messages], [role],
    [content], [type], [model], [system], [stream]): none of them is a
    built-in property of strings, numbers, booleans or arrays. *)
Definition get (v : value) (k : string) : result value :=
  match v with
  | VUndefined =>
      Throw ("Cannot read properties of undefined (reading '" +:+ k +:+ "')")
  | VNull =>
      Throw ("Cannot read properties of null (reading '" +:+ k +:+ "')")
  | VObj m => Ok (default VUndefined (m !! k))
  | _ => Ok VUndefined
  end.

(** [v?.k] *)
Definition get_opt (v : value) (k : string) : value :=
  match v with
  | VObj m => default VUndefined (m !! k)
  | _ => VUndefined
  end.

(** [v === s] for a string [s] *)
Definition is_string (v : value) (s : string) : bool :=
  match v with
  | VStr t => bool_decide (t = s)
  | _ => false
  end.

(** String conversion, as a template literal applies it.  Numbers are
    integers here and print in decimal. *)
Fixpoint toString (v : value) : string :=
  match v with
  | VUndefined => "undefined"
  | VNull => "null"
  | VBool b => if b then "true" else "false"
  | VNum n => pretty n
  | VStr s => s
  | VArr l =>
      String.concat ","
        (List.map (λ x, match x with
                        | VUndefined | VNull => ""
                        | _ => toString x
                        end) l)
  | VObj _ => "[object Object]"
  end.

(** [l.some(f)]: stops at the first element that satisfies [f]; an error
    thrown by [f] ends the iteration. *)
Fixpoint some (f : value → result bool) (l : list value) : result bool :=
  match l with
  | [] => Ok false
  | x :: l' => bind (f x) (λ b, if b then Ok true else some f l')
  end.

End Json.
Export Json.

(** ** lib/redis: the stores and the functions over them *)

Module Raw.
(** What Redis holds under an access key ([redis.get<any>]): an object
    whose properties may or may not be there.  Besides the properties of
    the current schema, the three legacy counts the migration looks at. *)
Record usage := { date : string; count : Z }.
Record t := {
  expiry : option string;
  daily_limit : option Z;
  usage_today : option usage;
  session_timeout_minutes : option Z;
  selected_model : option string;
  selected_api_profile_id : option string;
  max_concurrent_users : option Z;
  max_activations : option Z;
  max_ips : option Z
}.
End Raw.

Module ModelConfig.
Record t := { name : string; system_prompt : string }.
End ModelConfig.

Module APIProfile.
(** The properties of a profile that the handler reads. *)
Record t := {
  id : string;
  name : string;
  api_url : string;
  api_key : string;
  is_active : bool;
  model_actual : option string
}.
End APIProfile.

Module ProxySettings.
Record t := {
  api_url : string;
  api_key : string;
  model_display : string;
  model_actual : string;
  system_prompt : option string;
  models : option (gmap string ModelConfig.t)
}.
End ProxySettings.

Module Redis.

(** [RedisKeyData]: a record in the current schema, as [getKeyData]
    returns it.  When the stored object is returned as it is, the
    properties it had besides the current ones stay on it. *)
Record RedisKeyData := {
  expiry : option string;
  daily_limit : Z;
  usage_today : Raw.usage;
  session_timeout_minutes : option Z;
  selected_model : option string;
  selected_api_profile_id : option string;
  max_concurrent_users : option Z;
  max_activations : option Z;
  max_ips : option Z
}.

(** The object written by [redis.set(key, data)]. *)
Definition to_raw (d : RedisKeyData) : Raw.t :=
  {| Raw.expiry := expiry d;
     Raw.daily_limit := Some (daily_limit d);
     Raw.usage_today := Some (usage_today d);
     Raw.session_timeout_minutes := session_timeout_minutes d;
     Raw.selected_model := selected_model d;
     Raw.selected_api_profile_id := selected_api_profile_id d;
     Raw.max_concurrent_users := max_concurrent_users d;
     Raw.max_activations := max_activations d;
     Raw.max_ips := max_ips d |}.

(** [data as RedisKeyData], for an object that has both [daily_limit]
    and [usage_today]. *)
Definition of_raw (data : Raw.t) (limit : Z) (usage : Raw.usage) : RedisKeyData :=
  {| expiry := Raw.expiry data;
     daily_limit := limit;
     usage_today := usage;
     session_timeout_minutes := Raw.session_timeout_minutes data;
     selected_model := Raw.selected_model data;
     selected_api_profile_id := Raw.selected_api_profile_id data;
     max_concurrent_users := Raw.max_concurrent_users data;
     max_activations := Raw.max_activations data;
     max_ips := Raw.max_ips data |}.

(** [data.usage_today = u] *)
Definition set_usage_today (d : RedisKeyData) (u : Raw.usage) : RedisKeyData :=
  {| expiry := expiry d;
     daily_limit := daily_limit d;
     usage_today := u;
     session_timeout_minutes := session_timeout_minutes d;
     selected_model := selected_model d;
     selected_api_profile_id := selected_api_profile_id d;
     max_concurrent_users := max_concurrent_users d;
     max_activations := max_activations d;
     max_ips := max_ips d |}.

(** The database: access-key records, the settings singleton
    ([__proxy_settings__]) and the profile table ([__api_profiles__]). *)
Record db := {
  keys : gmap string Raw.t;
  settings : option ProxySettings.t;
  api_profiles : option (gmap string APIProfile.t)
}.

(** Store-passing computations. *)
Definition M (A : Type) : Type := db → db * A.

#[global] Instance M_ret : MRet M := λ A a r, (r, a).
#[global] Instance M_bind : MBind M := λ A B k m r,
  let '(r', a) := m r in k a r'.

Definition redis_get (key : string) : M (option Raw.t) :=
  λ r, (r, keys r !! key).

Definition redis_set (key : string) (data : Raw.t) : M unit :=
  λ r, ({| keys := <[key := data]> (keys r);
           settings := settings r;
           api_profiles := api_profiles r |}, tt).

Definition getKeyData (today key : string) : M (option RedisKeyData) :=
  data ← redis_get key;
  match data with
  | None => mret None
  | Some data =>
      match Raw.daily_limit data, Raw.usage_today data with
      | Some limit, Some usage =>
          (* 1. already the daily limit schema *)
          if decide (Raw.date usage ≠ today) then
            let data := set_usage_today (of_raw data limit usage)
                          {| Raw.date := today; Raw.count := 0 |} in
            _ ← redis_set key (to_raw data);
            mret (Some data)
          else mret (Some (of_raw data limit usage))
      | _, _ =>
          (* 2. migrate from any previous schema *)
          let dailyLimit :=
            match Raw.max_concurrent_users data with
            | Some n => n * 50
            | None =>
                match Raw.max_activations data with
                | Some n => n * 50
                | None =>
                    match Raw.max_ips data with
                    | Some n => n * 50
                    | None => 100
                    end
                end
            end in
          let newData :=
            {| expiry := Raw.expiry data;
               daily_limit := dailyLimit;
               usage_today := {| Raw.date := today; Raw.count := 0 |};
               session_timeout_minutes := Some 15;
               selected_model := None;
               selected_api_profile_id := None;
               max_concurrent_users := None;
               max_activations := None;
               max_ips := None |} in
          _ ← redis_set key (to_raw newData);
          mret (Some newData)
      end
  end.

Record UsageResult := {
  allowed : bool;
  currentUsage : Z;
  limit : Z;
  reason : option string
}.

Definition incrementUsage (today keyName : string) : M UsageResult :=
  data ← getKeyData today keyName;
  match data with
  | None =>
      mret {| allowed := false; currentUsage := 0; limit := 0;
              reason := Some "invalid_key" |}
  | Some data =>
      if decide (Raw.count (usage_today data) >= daily_limit data) then
        mret {| allowed := false;
                currentUsage := Raw.count (usage_today data);
                limit := daily_limit data;
                reason := Some "daily_limit_reached" |}
      else
        (* increment and save *)
        let data := set_usage_today data
                      {| Raw.date := Raw.date (usage_today data);
                         Raw.count := Raw.count (usage_today data) + 1 |} in
        _ ← redis_set keyName (to_raw data);
        mret {| allowed := true;
                currentUsage := Raw.count (usage_today data);
                limit := daily_limit data;
                reason := None |}
  end.

(** [a || b] for an optional string [a]: [undefined] and the empty
    string give way to [b]. *)
Definition or_else (a : option string) (b : string) : string :=
  match a with
  | Some s => if decide (s = "") then b else s
  | None => b
  end.

Definition getSettings : M (option ProxySettings.t) :=
  λ r, (r, settings r).

Definition set_settings (s : ProxySettings.t) : M unit :=
  λ r, ({| keys := keys r; settings := Some s;
           api_profiles := api_profiles r |}, tt).

Definition saveSettings (apiUrl apiKey : string)
    (modelDisplay modelActual systemPrompt : option string) : M bool :=
  (* get the existing settings first, to keep values that are not given *)
  existing ← getSettings;
  let settings :=
    {| ProxySettings.api_url := apiUrl;
       ProxySettings.api_key := apiKey;
       ProxySettings.model_display :=
         or_else modelDisplay
           (or_else (ProxySettings.model_display <$> existing)
              "Claude-Opus-4.5-VIP");
       ProxySettings.model_actual :=
         or_else modelActual
           (or_else (ProxySettings.model_actual <$> existing)
              "claude-3-5-haiku-20241022");
       ProxySettings.system_prompt :=
         Some match systemPrompt with
              | Some s => s
              | None => or_else (existing ≫= ProxySettings.system_prompt) ""
              end;
       ProxySettings.models :=
         Some (default ∅ (existing ≫= ProxySettings.models)) |} in
  _ ← set_settings settings;
  mret true.

Definition getAPIProfiles : M (gmap string APIProfile.t) :=
  λ r, (r, default ∅ (api_profiles r)).

Definition getAPIProfile (profileId : string) : M (option APIProfile.t) :=
  profiles ← getAPIProfiles;
  mret (profiles !! profileId).

End Redis.

(** ** api/proxy: the forwarding handler *)

Module Proxy.
Import JsString Redis.

Definition DEFAULT_API_BASE : string := "https://code.newcli.com/claude/droid/v1".

Definition buildUpstreamUrl (apiBase clientPath : string) : string :=
  (* remove a trailing slash from the base *)
  let apiBase := if endsWith apiBase "/" then slice_0_m1 apiBase else apiBase in
  if endsWith apiBase "/v1" then
    (* the base has /v1 already: remove /v1 from the client path *)
    let pathWithoutV1 :=
      if startsWith clientPath "/v1" then replace clientPath "/v1" "" else clientPath in
    apiBase +:+ pathWithoutV1
  else
    apiBase +:+ clientPath.

(** What the handler sends back: [res.status(n).json(body)] or
    [res.status(n).end()]. *)
Inductive Response :=
  | Json (status : Z) (body : gmap string value)
  | End_ (status : Z).

Record Request := {
  method : string;
  url : option string;
  authorization : option string;
  body : value
}.

(** The surroundings of one invocation: the calendar date read by the
    [getKeyData] of the authentication stage and by the one inside
    [incrementUsage], the outcome of [isExpired] (date arithmetic of the
    runtime, kept abstract) and the environment variable. *)
Record Env := {
  today_auth : string;
  today_quota : string;
  isExpired : option string → bool;
  API_KEY_GOC : option string
}.

(** Handler computations: store passing, with an early reply. *)
Definition H (A : Type) : Type := db → db * (Response + A).

Definition H_ret {A} (a : A) : H A := λ r, (r, inr a).
Definition H_bind {A B} (m : H A) (k : A → H B) : H B :=
  λ r, match m r with
       | (r', inl resp) => (r', inl resp)
       | (r', inr a) => k a r'
       end.
Definition reply {A} (resp : Response) : H A := λ r, (r, inl resp).
Definition liftM {A} (m : M A) : H A := λ r, let '(r', a) := m r in (r', inr a).

(** The [catch] around the handler's body. *)
Definition internalError (msg : string) : Response :=
  Json 500 {[ "error" := VStr "Internal server error"; "message" := VStr msg ]}.

Definition liftR {A} (m : result A) : H A :=
  match m with
  | Ok a => H_ret a
  | Throw msg => reply (internalError msg)
  end.

Notation "'let!' x ':=' m 'in' k" := (H_bind m (λ x, k))
  (at level 10, x name, m at level 100, k at level 200).

(** *** 1-2. Authentication and expiry *)

Definition authenticate (env : Env) (req : Request) : H (string * RedisKeyData) :=
  match authorization req with
  | None => reply (Json 401 {[ "error" := VStr "Missing or invalid Authorization header" ]})
  | Some authHeader =>
      if negb (bool_decide (authHeader ≠ "")) || negb (startsWith authHeader "Bearer ")
      then reply (Json 401 {[ "error" := VStr "Missing or invalid Authorization header" ]})
      else
        let userToken := replace authHeader "Bearer " "" in
        let! keyData := liftM (getKeyData (today_auth env) userToken) in
        match keyData with
        | None => reply (Json 401 {[ "error" := VStr "Invalid API key" ]})
        | Some keyData =>
            if isExpired env (expiry keyData)
            then reply (Json 403 {[ "error" := VStr "API key has expired" ]})
            else H_ret (userToken, keyData)
        end
  end.

(** *** 3. Daily limit: only new user messages count *)

Definition hasNewUserMessage (requestBody : value) : result bool :=
  bind (get requestBody "messages") (λ messages,
  match messages with
  | VArr messages =>
      let lastMessage := List.last messages VUndefined in
      if is_string (get_opt lastMessage "role") "user" then
        bind (get lastMessage "content") (λ content,
        match content with
        | VStr _ =>
            (* string content: a real user message *)
            Ok true
        | VArr blocks =>
            bind (some (λ block,
                          bind (get block "type") (λ t,
                          Ok (is_string t "tool_result"))) blocks)
                 (λ hasToolResult, Ok (negb hasToolResult))
        | _ =>
            (* a single object: look at its type *)
            Ok (negb (is_string (get_opt content "type") "tool_result"))
        end)
      else Ok false
  | _ => Ok false
  end).

Definition quotaExceeded (usageResult : UsageResult) : Response :=
  Json 429
    {[ "error" := VStr "Daily limit reached";
       "message" := VStr ("This key has reached its daily limit of "
                          +:+ pretty (limit usageResult)
                          +:+ " requests. Please try again tomorrow.");
       "current_usage" := VNum (currentUsage usageResult);
       "daily_limit" := VNum (limit usageResult) ]}.

Definition quotaStage (env : Env) (userToken : string) (keyData : RedisKeyData)
    (requestBody : value) : H UsageResult :=
  let! hasNew := liftR (hasNewUserMessage requestBody) in
  if hasNew : bool then
    let! usageResult := liftM (incrementUsage (today_quota env) userToken) in
    if negb (allowed usageResult)
    then reply (quotaExceeded usageResult)
    else H_ret usageResult
  else
    H_ret {| allowed := true; currentUsage := 0;
             limit := daily_limit keyData; reason := None |}.

(** *** 4. Settings, profile and upstream URL *)

Record Route := {
  apiUrl : string;
  apiKey : string;
  profileModelActual : option string
}.

Definition routeStage (env : Env) (clientPath : string) (keyData : RedisKeyData)
    (settings : option ProxySettings.t) : H Route :=
  let apiBase := or_else (ProxySettings.api_url <$> settings) DEFAULT_API_BASE in
  let apiKey :=
    match ProxySettings.api_key <$> settings with
    | Some k => if decide (k = "") then API_KEY_GOC env else Some k
    | None => API_KEY_GOC env
    end in
  let! selected :=
    (* the profile selected by the key, when there is one and it is active *)
    match selected_api_profile_id keyData with
    | Some profileId =>
        if decide (profileId = "") then H_ret None
        else
          let! profile := liftM (getAPIProfile profileId) in
          match profile with
          | Some profile =>
              if APIProfile.is_active profile then H_ret (Some profile) else H_ret None
          | None => H_ret None
          end
    | None => H_ret None
    end in
  let apiBase := from_option APIProfile.api_url apiBase selected in
  let apiKey := from_option (λ p, Some (APIProfile.api_key p)) apiKey selected in
  let profileModelActual := selected ≫= APIProfile.model_actual in
  let apiUrl := buildUpstreamUrl apiBase clientPath in
  match apiKey with
  | Some k =>
      if decide (k = "") then
        reply (Json 500 {[ "error" := VStr "API Key not configured";
                           "message" := VStr "Please configure API Key in Admin Panel Settings" ]})
      else H_ret {| apiUrl := apiUrl; apiKey := k;
                    profileModelActual := profileModelActual |}
  | None =>
      reply (Json 500 {[ "error" := VStr "API Key not configured";
                         "message" := VStr "Please configure API Key in Admin Panel Settings" ]})
  end.

(** *** 5. Model validation and transformation *)

Definition resolveModelDisplay (settings : option ProxySettings.t) : string :=
  or_else (ProxySettings.model_display <$> settings) "Claude-Opus-4.5-VIP".

Definition resolveModelActual (profileModelActual : option string)
    (settings : option ProxySettings.t) : string :=
  or_else profileModelActual
    (or_else (ProxySettings.model_actual <$> settings) "claude-haiku-4-5-20251001").

Definition invalidModel (requested : value) (modelDisplay : string) : Response :=
  Json 400
    {[ "error" := VStr "Invalid model";
       "message" := VStr ("Model " +:+ String "034" (toString requested)
                          +:+ String "034" " is not available. Please use "
                          +:+ String "034" modelDisplay +:+ String "034" ".");
       "type" := VStr "invalid_request_error" ]}.

(** The stage gives the outbound payload, an object. *)
Definition modelStage (modelDisplay modelActual : string) (requestBody : value)
    : H (gmap string value) :=
  let! requested := liftR (get requestBody "model") in
  if negb (is_string requested modelDisplay)
  then reply (invalidModel requested modelDisplay)
  else
    (* [requestBody.model = modelActual]; a body whose [model] is the
       display name is an object *)
    match requestBody with
    | VObj m => H_ret (<["model" := VStr modelActual]> m)
    | _ => H_ret ∅
    end.

(** *** 6. System prompt injection *)

Definition MAX_SYSTEM_PROMPT_LENGTH : Z := 10000.

Definition selectSystemPrompt (keyData : RedisKeyData)
    (settings : option ProxySettings.t) : option string :=
  let systemPrompt := settings ≫= ProxySettings.system_prompt in
  let models := settings ≫= ProxySettings.models in
  match selected_model keyData with
  | Some keySelectedModel =>
      if decide (keySelectedModel = "") then systemPrompt
      else
        match models ≫= (.!! keySelectedModel) with
        | Some modelConfig => Some (ModelConfig.system_prompt modelConfig)
        | None => systemPrompt
        end
  | None => systemPrompt
  end.

Definition sanitizeSystemPrompt (systemPrompt : option string) : option string :=
  match systemPrompt with
  | Some systemPrompt =>
      if decide (systemPrompt = "") then None
      else
        let systemPrompt := trim systemPrompt in
        if decide (systemPrompt = "") then None
        else if decide (Z.of_nat (String.length systemPrompt) > MAX_SYSTEM_PROMPT_LENGTH)
             then Some (substring_0 (Z.to_nat MAX_SYSTEM_PROMPT_LENGTH) systemPrompt)
             else Some systemPrompt
  | None => None
  end.

Definition systemMessage (systemPrompt : string) : value :=
  VObj {[ "role" := VStr "system"; "content" := VStr systemPrompt ]}.

Definition hasRoleSystem (msg : value) : result bool :=
  bind (get msg "role") (λ role, Ok (is_string role "system")).

(** [messages.map(msg => msg.role === 'system' ? {...} : msg)] *)
Fixpoint replaceSystemMessages (systemPrompt : string) (messages : list value)
    : result (list value) :=
  match messages with
  | [] => Ok []
  | msg :: rest =>
      bind (hasRoleSystem msg) (λ b,
      bind (replaceSystemMessages systemPrompt rest) (λ rest',
      Ok ((if b : bool then systemMessage systemPrompt else msg) :: rest')))
  end.

Definition injectSystemPrompt (clientPath : string) (systemPrompt : option string)
    (requestBody : gmap string value) : result (gmap string value) :=
  match systemPrompt with
  | None => Ok requestBody
  | Some systemPrompt =>
      let isAnthropic :=
        bool_decide (is_Some (requestBody !! "system"))
        || includes clientPath "/messages" in
      if isAnthropic then
        let existingSystem := default VUndefined (requestBody !! "system") in
        (* the log entry on the original field takes
           [JSON.stringify(existingSystem).substring(0, 100)] when the
           field is not a string; [JSON.stringify(undefined)] is
           [undefined] *)
        match existingSystem with
        | VUndefined =>
            Throw "Cannot read properties of undefined (reading 'substring')"
        | _ =>
            (* replace the system field with the configured prompt *)
            Ok (<["system" := VStr systemPrompt]> requestBody)
        end
      else
        match requestBody !! "messages" with
        | Some (VArr messages) =>
            bind (some hasRoleSystem messages) (λ hasSystemMessage,
            if hasSystemMessage : bool then
              bind (replaceSystemMessages systemPrompt messages) (λ messages',
              Ok (<["messages" := VArr messages']> requestBody))
            else
              Ok (<["messages" := VArr (systemMessage systemPrompt :: messages)]>
                    requestBody))
        | _ => Ok requestBody
        end
  end.

(** *** The handler up to the upstream call *)

Record Forward := {
  upstreamUrl : string;
  upstreamKey : string;
  upstreamBody : gmap string value;
  modelDisplay : string;
  modelActual : string
}.

(** Stages 4 to 6: from the settings to the request that is sent
    upstream. *)
Definition prepare (env : Env) (clientPath : string) (keyData : RedisKeyData)
    (requestBody : value) : H Forward :=
  let! settings := liftM getSettings in
  let! route := routeStage env clientPath keyData settings in
  let modelDisplay := resolveModelDisplay settings in
  let modelActual := resolveModelActual (profileModelActual route) settings in
  let! requestBody := modelStage modelDisplay modelActual requestBody in
  let systemPrompt := sanitizeSystemPrompt (selectSystemPrompt keyData settings) in
  let! requestBody := liftR (injectSystemPrompt clientPath systemPrompt requestBody) in
  H_ret {| upstreamUrl := apiUrl route;
           upstreamKey := apiKey route;
           upstreamBody := requestBody;
           modelDisplay := modelDisplay;
           modelActual := modelActual |}.

Definition pipeline (env : Env) (req : Request) : H Forward :=
  let clientPath := or_else (url req) "/v1/chat/completions" in
  let! auth := authenticate env req in
  let '(userToken, keyData) := auth in
  let requestBody := body req in
  let! usageResult := quotaStage env userToken keyData requestBody in
  prepare env clientPath keyData requestBody.

Definition handler (env : Env) (req : Request) : H Forward :=
  if decide (method req = "OPTIONS") then reply (End_ 200)
  else if decide (method req ≠ "POST")
       then reply (Json 405 {[ "error" := VStr "Method not allowed" ]})
       else pipeline env req.

(** *** 7-8. Relaying the upstream response *)

(** The substitutions applied to a piece of response text.  The first
    pattern is compiled from the model id ([new RegExp(modelActual, 'g')])
    and two replacements are the display name: they act as the literal
    substitution written here when the id holds no metacharacter and the
    display name no [$] ([plain_pattern], [plain_replacement]). *)
Definition rewriteModelNames (modelActual modelDisplay text : string) : string :=
  let text := replaceAll text modelActual modelDisplay in
  let text := replaceAll text "Claude Code" "Claude Opus" in
  let text := replaceAll text "claude-3-5-haiku" modelDisplay in
  let text := replaceAll text "Haiku" "Opus" in
  let text := replaceAll text "Sonnet" "Opus" in
  let text := replaceAll text "4.5 Sonnet" "4.5 Opus" in
  text.

(** The streaming loop.  [chunks] are the decoded reads of the upstream
    body up to its end; [disconnect = Some n] says that the client is seen
    gone at the start of iteration [n].  The result is the list of the
    [res.write] calls. *)
Fixpoint relayStream (modelActual modelDisplay : string) (disconnect : option nat)
    (chunks : list string) : list string :=
  match disconnect with
  | Some O => []                       (* reader.cancel(); break *)
  | _ =>
      match chunks with
      | [] => []                       (* done: res.end(); break *)
      | chunk :: chunks' =>
          rewriteModelNames modelActual modelDisplay chunk
          :: relayStream modelActual modelDisplay (Nat.pred <$> disconnect) chunks'
      end
  end.

(** The non-streaming branch, on the serialised body
    ([JSON.stringify(data)], parsed again after the rewrite). *)
Definition relayBuffered (modelActual modelDisplay text : string) : string :=
  rewriteModelNames modelActual modelDisplay text.

End Proxy.

(** ** api/admin/settings/save *)

Module SettingsSave.
Import Redis Proxy.

(** The parsed body.  [api_url] and [api_key] are checked by the handler;
    the other three properties go to [saveSettings] as they are, whose
    signature has them as optional strings. *)
Record Body := {
  api_url : value;
  api_key : value;
  model_display : option string;
  model_actual : option string;
  system_prompt : option string
}.

Record Request := {
  method : string;
  authorization : option string;
  body : Body
}.

Section Handler.
(** [verifyToken] of lib/auth and the URL parser of the runtime
    ([new URL(api_url)] returns or throws). *)
Variable verifyToken : string → bool.
Variable validURL : string → bool.

Definition handler (req : Request) : M Response :=
  if decide (method req ≠ "POST")
  then mret (Json 405 {[ "error" := VStr "Method not allowed" ]})
  else
    match authorization req with
    | None => mret (Json 401 {[ "error" := VStr "Missing authorization header" ]})
    | Some authHeader =>
        if negb (bool_decide (authHeader ≠ ""))
           || negb (JsString.startsWith authHeader "Bearer ")
        then mret (Json 401 {[ "error" := VStr "Missing authorization header" ]})
        else
          let token := JsString.replace authHeader "Bearer " "" in
          if negb (verifyToken token)
          then mret (Json 401 {[ "error" := VStr "Invalid or expired token" ]})
          else
            match api_url (body req) with
            | VStr apiUrl =>
                if decide (apiUrl = "")
                then mret (Json 400 {[ "error" := VStr "API URL is required" ]})
                else
                  match api_key (body req) with
                  | VStr apiKey =>
                      if decide (apiKey = "")
                      then mret (Json 400 {[ "error" := VStr "API Key is required" ]})
                      else if negb (validURL apiUrl)
                      then mret (Json 400 {[ "error" := VStr "Invalid URL format" ]})
                      else
                        success ← saveSettings apiUrl apiKey
                                    (model_display (body req))
                                    (model_actual (body req))
                                    (system_prompt (body req));
                        if success : bool
                        then mret (Json 200 {[ "success" := VBool true;
                                               "message" := VStr "Settings saved successfully" ]})
                        else mret (Json 500 {[ "error" := VStr "Failed to save settings" ]})
                  | _ => mret (Json 400 {[ "error" := VStr "API Key is required" ]})
                  end
            | _ => mret (Json 400 {[ "error" := VStr "API URL is required" ]})
            end
    end.
End Handler.

End SettingsSave.

(** ** Requests that run at the same time

  [incrementUsage] gives up control at each [await]: at the [redis.get]
  of [getKeyData], at the [redis.set] that persists a reset or migrated
  record, and at the [redis.set] that persists the incremented count.
  Between two of these points a request runs alone; at each of them any
  other request may run. *)

Module Concurrent.
Import Redis.

Inductive proc :=
  | Start                              (* about to [redis.get] *)
  | Persist (data : RedisKeyData)      (* [getKeyData] about to [redis.set] *)
  | Save (data : RedisKeyData)         (* about to [redis.set] the new count *)
  | Done (r : UsageResult).

(** [incrementUsage] from the return of [getKeyData] to its next [await]. *)
Definition check (data : RedisKeyData) : proc :=
  if decide (Raw.count (usage_today data) >= daily_limit data) then
    Done {| allowed := false;
            currentUsage := Raw.count (usage_today data);
            limit := daily_limit data;
            reason := Some "daily_limit_reached" |}
  else
    Save (set_usage_today data
            {| Raw.date := Raw.date (usage_today data);
               Raw.count := Raw.count (usage_today data) + 1 |}).

(** One request runs from one [await] to the next. *)
Definition step (today keyName : string) (p : proc) : M proc :=
  match p with
  | Start =>
      data ← redis_get keyName;
      match data with
      | None =>
          mret (Done {| allowed := false; currentUsage := 0; limit := 0;
                        reason := Some "invalid_key" |})
      | Some data =>
          match Raw.daily_limit data, Raw.usage_today data with
          | Some limit, Some usage =>
              if decide (Raw.date usage ≠ today) then
                mret (Persist (set_usage_today (of_raw data limit usage)
                                 {| Raw.date := today; Raw.count := 0 |}))
              else mret (check (of_raw data limit usage))
          | _, _ =>
              let dailyLimit :=
                match Raw.max_concurrent_users data with
                | Some n => n * 50
                | None =>
                    match Raw.max_activations data with
                    | Some n => n * 50
                    | None =>
                        match Raw.max_ips data with
                        | Some n => n * 50
                        | None => 100
                        end
                    end
                end in
              mret (Persist
                      {| expiry := Raw.expiry data;
                         daily_limit := dailyLimit;
                         usage_today := {| Raw.date := today; Raw.count := 0 |};
                         session_timeout_minutes := Some 15;
                         selected_model := None;
                         selected_api_profile_id := None;
                         max_concurrent_users := None;
                         max_activations := None;
                         max_ips := None |})
          end
      end
  | Persist data =>
      _ ← redis_set keyName (to_raw data);
      mret (check data)
  | Save data =>
      _ ← redis_set keyName (to_raw data);
      mret (Done {| allowed := true;
                    currentUsage := Raw.count (usage_today data);
                    limit := daily_limit data;
                    reason := None |})
  | Done r => mret (Done r)
  end.

(** The requests in flight for one key, and a schedule: which request
    runs next, step after step. *)
Definition step_at (today keyName : string) (i : nat) (procs : list proc)
    : M (list proc) :=
  match procs !! i with
  | Some p =>
      p' ← step today keyName p;
      mret (<[i := p']> procs)
  | None => mret procs
  end.

Fixpoint run (today keyName : string) (schedule : list nat) (procs : list proc)
    : M (list proc) :=
  match schedule with
  | [] => mret procs
  | i :: schedule' =>
      procs' ← step_at today keyName i procs;
      run today keyName schedule' procs'
  end.

Definition finished (p : proc) : bool :=
  match p with Done _ => true | _ => false end.

Definition admitted (p : proc) : bool :=
  match p with Done r => allowed r | _ => false end.

(** One request after the other: [n] calls of [incrementUsage]. *)
Fixpoint sequential (today keyName : string) (n : nat) : M (list UsageResult) :=
  match n with
  | O => mret []
  | S n' =>
      r ← incrementUsage today keyName;
      rs ← sequential today keyName n';
      mret (r :: rs)
  end.

End Concurrent.

(** ** lib/redis: keys, model configurations and profiles

  The functions of the administrative side.  Property names given by the
  caller ([modelId], [profileId]) index plain objects; the functions are
  modelled for names that are not properties of [Object.prototype]
  ([own_name]). *)

Module RedisAdmin.
Import Redis.

(** The names under which Redis holds the two singletons.  The database
    of the model keeps them apart from the key records, so the functions
    that take a key name are modelled for names other than these two
    ([access_key]). *)
Definition SETTINGS_KEY : string := "__proxy_settings__".
Definition API_PROFILES_KEY : string := "__api_profiles__".

Definition access_key (k : string) : bool :=
  negb (bool_decide (k = SETTINGS_KEY)) && negb (bool_decide (k = API_PROFILES_KEY)).

Definition own_name (k : string) : bool :=
  negb (bool_decide (k ∈ ["constructor"; "toString"; "toLocaleString"; "valueOf";
                          "hasOwnProperty"; "isPrototypeOf"; "propertyIsEnumerable";
                          "__proto__"; "__defineGetter__"; "__defineSetter__";
                          "__lookupGetter__"; "__lookupSetter__"])).

Definition createKey (today keyName expiry : string) (dailyLimit : option Z) : M bool :=
  let dailyLimit := default 100 dailyLimit in
  let newKey :=
    {| expiry := Some expiry;
       daily_limit := dailyLimit;
       usage_today := {| Raw.date := today; Raw.count := 0 |};
       session_timeout_minutes := Some 15;
       selected_model := None;
       selected_api_profile_id := None;
       max_concurrent_users := None;
       max_activations := None;
       max_ips := None |} in
  _ ← redis_set keyName (to_raw newKey);
  mret true.

(** [redis.del(keyName)] gives the number of keys removed. *)
Definition redis_del (key : string) : M Z :=
  λ r, ({| keys := delete key (keys r);
           settings := settings r;
           api_profiles := api_profiles r |},
        if decide (is_Some (keys r !! key)) then 1 else 0).

Definition deleteKey (keyName : string) : M bool :=
  result ← redis_del keyName;
  mret (bool_decide (result = 1)).

(** [data.selected_model = modelId], and [delete data.selected_model]
    for [None]. *)
Definition set_selected_model (d : RedisKeyData) (modelId : option string) : RedisKeyData :=
  {| expiry := expiry d;
     daily_limit := daily_limit d;
     usage_today := usage_today d;
     session_timeout_minutes := session_timeout_minutes d;
     selected_model := modelId;
     selected_api_profile_id := selected_api_profile_id d;
     max_concurrent_users := max_concurrent_users d;
     max_activations := max_activations d;
     max_ips := max_ips d |}.

Definition set_selected_api_profile_id (d : RedisKeyData) (profileId : option string)
    : RedisKeyData :=
  {| expiry := expiry d;
     daily_limit := daily_limit d;
     usage_today := usage_today d;
     session_timeout_minutes := session_timeout_minutes d;
     selected_model := selected_model d;
     selected_api_profile_id := profileId;
     max_concurrent_users := max_concurrent_users d;
     max_activations := max_activations d;
     max_ips := max_ips d |}.

(** [data?.selected_model || null] *)
Definition getKeySelectedModel (today keyName : string) : M (option string) :=
  data ← getKeyData today keyName;
  mret (match data ≫= selected_model with
        | Some m => if decide (m = "") then None else Some m
        | None => None
        end).

Definition setKeySelectedModel (today keyName : string) (modelId : option string)
    : M bool :=
  data ← getKeyData today keyName;
  match data with
  | None => mret false
  | Some data =>
      _ ← redis_set keyName (to_raw (set_selected_model data modelId));
      mret true
  end.

Definition getModelConfigs : M (gmap string ModelConfig.t) :=
  settings ← getSettings;
  mret (default ∅ (settings ≫= ProxySettings.models)).

(** [settings.models = models] *)
Definition set_models (s : ProxySettings.t) (models : gmap string ModelConfig.t)
    : ProxySettings.t :=
  {| ProxySettings.api_url := ProxySettings.api_url s;
     ProxySettings.api_key := ProxySettings.api_key s;
     ProxySettings.model_display := ProxySettings.model_display s;
     ProxySettings.model_actual := ProxySettings.model_actual s;
     ProxySettings.system_prompt := ProxySettings.system_prompt s;
     ProxySettings.models := Some models |}.

Definition saveModelConfig (modelId : string) (config : ModelConfig.t) : M bool :=
  settings ← getSettings;
  match settings with
  | None => mret false
  | Some settings =>
      let models := default ∅ (ProxySettings.models settings) in
      let models := <[modelId := config]> models in
      _ ← set_settings (set_models settings models);
      mret true
  end.

Definition deleteModelConfig (modelId : string) : M bool :=
  settings ← getSettings;
  match settings with
  | None => mret false
  | Some settings =>
      match ProxySettings.models settings with
      | None => mret false
      | Some models =>
          _ ← set_settings (set_models settings (delete modelId models));
          mret true
      end
  end.

Definition set_api_profiles (profiles : gmap string APIProfile.t) : M unit :=
  λ r, ({| keys := keys r; settings := settings r;
           api_profiles := Some profiles |}, tt).

Definition saveAPIProfile (profile : APIProfile.t) : M bool :=
  profiles ← getAPIProfiles;
  _ ← set_api_profiles (<[APIProfile.id profile := profile]> profiles);
  mret true.

Definition deleteAPIProfile (profileId : string) : M bool :=
  profiles ← getAPIProfiles;
  match profiles !! profileId with
  | None => mret false
  | Some _ =>
      _ ← set_api_profiles (delete profileId profiles);
      mret true
  end.

Definition setKeySelectedProfile (today keyName : string) (profileId : option string)
    : M bool :=
  data ← getKeyData today keyName;
  match data with
  | None => mret false
  | Some data =>
      match profileId with
      | None =>
          _ ← redis_set keyName (to_raw (set_selected_api_profile_id data None));
          mret true
      | Some profileId =>
          (* the profile must exist *)
          profile ← getAPIProfile profileId;
          match profile with
          | None => mret false
          | Some _ =>
              _ ← redis_set keyName
                    (to_raw (set_selected_api_profile_id data (Some profileId)));
              mret true
          end
      end
  end.

End RedisAdmin.

(** * Terms of the statements, and sample data *)

Section Terms.
Import JsString Redis Proxy Concurrent.

(** The database after [redis.set(key, data)]. *)
Definition with_key (r : db) (key : string) (data : Raw.t) : db :=
  {| keys := <[key := data]> (keys r);
     settings := settings r;
     api_profiles := api_profiles r |}.

(** The limit the migration infers from the legacy counts. *)
Definition migratedLimit (data : Raw.t) : Z :=
  match Raw.max_concurrent_users data with
  | Some n => n * 50
  | None =>
      match Raw.max_activations data with
      | Some n => n * 50
      | None =>
          match Raw.max_ips data with
          | Some n => n * 50
          | None => 100
          end
      end
  end.

Definition migrated (today : string) (data : Raw.t) : RedisKeyData :=
  {| expiry := Raw.expiry data;
     daily_limit := migratedLimit data;
     usage_today := {| Raw.date := today; Raw.count := 0 |};
     session_timeout_minutes := Some 15;
     selected_model := None;
     selected_api_profile_id := None;
     max_concurrent_users := None;
     max_activations := None;
     max_ips := None |}.

(** The record of the migration example and what it becomes. *)
Definition legacyExample : Raw.t :=
  {| Raw.expiry := Some "2026-01-01";
     Raw.daily_limit := None;
     Raw.usage_today := None;
     Raw.session_timeout_minutes := None;
     Raw.selected_model := None;
     Raw.selected_api_profile_id := None;
     Raw.max_concurrent_users := None;
     Raw.max_activations := Some 3;
     Raw.max_ips := None |}.

Definition migratedExample (today : string) : Raw.t :=
  {| Raw.expiry := Some "2026-01-01";
     Raw.daily_limit := Some 150;
     Raw.usage_today := Some {| Raw.date := today; Raw.count := 0 |};
     Raw.session_timeout_minutes := Some 15;
     Raw.selected_model := None;
     Raw.selected_api_profile_id := None;
     Raw.max_concurrent_users := None;
     Raw.max_activations := None;
     Raw.max_ips := None |}.

(** The stored record with its usage count moved to [n]. *)
Definition with_count (data : Raw.t) (usage : Raw.usage) (n : Z) : Raw.t :=
  {| Raw.expiry := Raw.expiry data;
     Raw.daily_limit := Raw.daily_limit data;
     Raw.usage_today := Some {| Raw.date := Raw.date usage; Raw.count := n |};
     Raw.session_timeout_minutes := Raw.session_timeout_minutes data;
     Raw.selected_model := Raw.selected_model data;
     Raw.selected_api_profile_id := Raw.selected_api_profile_id data;
     Raw.max_concurrent_users := Raw.max_concurrent_users data;
     Raw.max_activations := Raw.max_activations data;
     Raw.max_ips := Raw.max_ips data |}.

Definition rejected (n limit : Z) : UsageResult :=
  {| allowed := false; currentUsage := n; limit := limit;
     reason := Some "daily_limit_reached" |}.

Definition accepted (n limit : Z) : UsageResult :=
  {| allowed := true; currentUsage := n; limit := limit; reason := None |}.

(** A key with a limit of 5 and a given usage. *)
Definition sampleKey (date : string) (count : Z) : Raw.t :=
  {| Raw.expiry := Some "2027-01-01";
     Raw.daily_limit := Some 5;
     Raw.usage_today := Some {| Raw.date := date; Raw.count := count |};
     Raw.session_timeout_minutes := Some 15;
     Raw.selected_model := None;
     Raw.selected_api_profile_id := None;
     Raw.max_concurrent_users := None;
     Raw.max_activations := None;
     Raw.max_ips := None |}.

Definition staleExample : Raw.t := sampleKey "2026-11-01" 5.

(** Computations that leave the database as it is. *)
Definition reads_only {A} (m : H A) : Prop := ∀ r, (m r).1 = r.

Definition fullExample : Raw.t := sampleKey "2026-11-02" 5.

Definition userTurn : value :=
  VObj {[ "model" := VStr "Public-Model";
          "messages" := VArr [VObj {[ "role" := VStr "user"; "content" := VStr "hi" ]}] ]}.

Definition envExample : Env :=
  {| today_auth := "2026-11-02"; today_quota := "2026-11-02";
     isExpired := λ _, false; API_KEY_GOC := None |}.

Definition has_type_tool_result (block : value) : bool :=
  is_string (get_opt block "type") "tool_result".

Definition present (v : value) : bool :=
  match v with
  | VUndefined | VNull => false
  | _ => true
  end.

(** The rule in the words of the specification: the last message has
    role "user" and its content is a string, or an object or array of
    content blocks none of which has type "tool_result". *)
Definition countable_as_specified (messages : list value) : bool :=
  let lastMessage := List.last messages VUndefined in
  is_string (get_opt lastMessage "role") "user" &&
  match get_opt lastMessage "content" with
  | VStr _ => true
  | VArr blocks => forallb (λ block, negb (has_type_tool_result block)) blocks
  | VObj block => negb (has_type_tool_result (VObj block))
  | _ => false
  end.

(** The rule of the handler: content that is neither a string nor an
    array counts unless it has type "tool_result" itself, and the blocks
    of an array must all be there to be looked at. *)
Definition countable (messages : list value) : bool :=
  let lastMessage := List.last messages VUndefined in
  is_string (get_opt lastMessage "role") "user" &&
  match get_opt lastMessage "content" with
  | VStr _ => true
  | VArr blocks =>
      forallb (λ block, present block && negb (has_type_tool_result block)) blocks
  | content => negb (has_type_tool_result content)
  end.

Definition blockIsToolResult (block : value) : result bool :=
  bind (get block "type") (λ t, Ok (is_string t "tool_result")).

Definition message (role : string) (content : value) : value :=
  VObj {[ "role" := VStr role; "content" := content ]}.

Definition payload (messages : list value) : value :=
  VObj {[ "messages" := VArr messages ]}.

Definition userNoContent : gmap string value :=
  {[ "messages" := VArr [VObj {[ "role" := VStr "user" ]}] ]}.

(** The profile a key routes through: the one it selects, when that one
    exists and is active. *)
Definition selectedProfile (r : db) (keyData : RedisKeyData) : option APIProfile.t :=
  match selected_api_profile_id keyData with
  | Some profileId =>
      if decide (profileId = "") then None
      else
        match default ∅ (api_profiles r) !! profileId with
        | Some profile => if APIProfile.is_active profile then Some profile else None
        | None => None
        end
  | None => None
  end.

Definition settingsExample : ProxySettings.t :=
  {| ProxySettings.api_url := "https://u.example/v1";
     ProxySettings.api_key := "sk-upstream";
     ProxySettings.model_display := "Public-Model";
     ProxySettings.model_actual := "upstream-model";
     ProxySettings.system_prompt := Some "  Be brief.  ";
     ProxySettings.models := None |}.

Definition keyExample : Raw.t := sampleKey "2026-11-02" 0.

Definition dbExample : db :=
  {| keys := {[ "k" := keyExample ]};
     settings := Some settingsExample;
     api_profiles := None |}.

Definition userTurnWithSystem : value :=
  VObj {[ "model" := VStr "Public-Model";
          "system" := VStr "You are a pirate.";
          "messages" := VArr [VObj {[ "role" := VStr "user"; "content" := VStr "hi" ]}] ]}.

Definition post (path : string) (requestBody : value) : Request :=
  {| method := "POST"; url := Some path;
     authorization := Some "Bearer k"; body := requestBody |}.

Definition afterOneRequest : db :=
  with_key dbExample "k"
    (with_count keyExample {| Raw.date := "2026-11-02"; Raw.count := 0 |} 1).

(** The payload that goes upstream, when the handler gets that far. *)
Definition sentUpstream (out : db * (Response + Forward)) : option (gmap string value) :=
  match out.2 with
  | inr fwd => Some (upstreamBody fwd)
  | inl _ => None
  end.

(** [p] matches nowhere inside [u] when [u] is followed by [rest]. *)
Definition no_match_inside (p u rest : string) : Prop :=
  ∀ u1 u2 w, u = u1 +:+ u2 → u2 ≠ "" → u2 +:+ rest ≠ p +:+ w.

(** [ReplacedAll p r s t]: [t] is [s] with every occurrence of [p],
    taken from the left and without overlap, replaced by [r]. *)
Inductive ReplacedAll (p r : string) : string → string → Prop :=
  | ReplacedAll_none s :
      (∀ u v, s ≠ u +:+ p +:+ v) → ReplacedAll p r s s
  | ReplacedAll_first u v v' :
      no_match_inside p u (p +:+ v) →
      ReplacedAll p r v v' →
      ReplacedAll p r (u +:+ p +:+ v) (u +:+ r +:+ v').

(** The text the client receives from a streamed response. *)
Definition delivered (writes : list string) : string := String.concat "" writes.

(** C8 as stated, for a streamed response: what the client receives is
    the response text with the substitutions made all over it. *)
Definition rewrites_whole_text (modelActual modelDisplay : string)
    (chunks : list string) : Prop :=
  delivered (relayStream modelActual modelDisplay None chunks)
  = rewriteModelNames modelActual modelDisplay (delivered chunks).

Definition admittedCount (procs : list proc) : nat :=
  length (List.filter admitted procs).

Definition allowedCount (rs : list UsageResult) : nat :=
  length (List.filter allowed rs).

(** C2 as stated: whatever the order in which [N] requests take their
    steps, once all are finished exactly [k = daily_limit - count] of them
    have been admitted. *)
Definition admits_exactly_the_remaining_quota : Prop :=
  ∀ (today key : string) (r : db) (data : Raw.t) (limit : Z) (usage : Raw.usage)
    (N : nat) (schedule : list nat),
    keys r !! key = Some data →
    Raw.daily_limit data = Some limit →
    Raw.usage_today data = Some usage →
    Raw.date usage = today →
    0 ≤ limit - Raw.count usage →
    let procs := (run today key schedule (replicate N Start) r).2 in
    forallb finished procs = true →
    admittedCount procs = Z.to_nat (limit - Raw.count usage).

Definition lastSlot : Raw.t := sampleKey "2026-11-02" 4.

Definition lastSlotDb : db :=
  {| keys := {[ "k" := lastSlot ]}; settings := None; api_profiles := None |}.

Definition twoSlots : Raw.t :=
  with_count lastSlot {| Raw.date := "2026-11-02"; Raw.count := 3 |} 3.

End Terms.

Section SaveTerms.
Import SettingsSave.

Definition saveRequest : Request :=
  {| method := "POST";
     authorization := Some "Bearer admin-token";
     body := {| api_url := VStr "https://u.example/v1";
                api_key := VStr "sk-new";
                model_display := None;
                model_actual := None;
                system_prompt := None |} |}.

End SaveTerms.

(** * Further terms *)

Section MoreTerms.
Import JsString Redis Proxy.

(** A message of role "system". *)
Definition isSystem (msg : value) : bool :=
  is_string (get_opt msg "role") "system".

(** The message after the replacement of system messages. *)
Definition withSystemPrompt (q : string) (msg : value) : value :=
  if is_string (get_opt msg "role") "system" then systemMessage q else msg.

(** The character [c] does not occur in [s]. *)
Definition lacks (c : ascii) (s : string) : bool :=
  all_chars (λ x, negb (bool_decide (x = c))) s.



(** What an interleaved run keeps true of the store and of each request:
    the record of the key is dated today with a count between the initial
    one and the limit, and a request about to write carries such a count. *)
Definition store_within (today key : string) (limit c0 : Z) (r : db) : Prop :=
  ∃ data usage,
    keys r !! key = Some data ∧ Raw.daily_limit data = Some limit ∧
    Raw.usage_today data = Some usage ∧ Raw.date usage = today ∧
    c0 ≤ Raw.count usage ≤ limit.

Definition proc_within (today : string) (limit c0 : Z) (p : Concurrent.proc) : Prop :=
  match p with
  | Concurrent.Start => True
  | Concurrent.Persist _ => False
  | Concurrent.Save d =>
      daily_limit d = limit ∧ Raw.date (usage_today d) = today ∧
      c0 < Raw.count (usage_today d) ≤ limit
  | Concurrent.Done u => allowed u = true → c0 < currentUsage u ≤ limit
  end.

(** Sample data: a profile, a model configuration, and payloads. *)
Definition profileExample : APIProfile.t :=
  {| APIProfile.id := "p1";
     APIProfile.name := "Fast";
     APIProfile.api_url := "https://fast.example/v1";
     APIProfile.api_key := "sk-fast";
     APIProfile.is_active := true;
     APIProfile.model_actual := Some "fast-model" |}.

Definition dbWithProfile : db :=
  {| keys := keys dbExample;
     settings := settings dbExample;
     api_profiles := Some {[ "p1" := profileExample ]} |}.

Definition configExample : ModelConfig.t :=
  {| ModelConfig.name := "Gemini"; ModelConfig.system_prompt := "Answer in French." |}.


Definition userMessage : value :=
  VObj {[ "role" := VStr "user"; "content" := VStr "hi" ]}.

Definition assistantTurn : value :=
  VObj {[ "model" := VStr "Public-Model";
          "messages" := VArr [VObj {[ "role" := VStr "assistant";
                                      "content" := VStr "hello" ]}] ]}.


Definition chatBody : gmap string value :=
  {[ "model" := VStr "Public-Model"; "messages" := VArr [userMessage] ]}.

Definition chatBodyInjected : gmap string value :=
  {[ "model" := VStr "Public-Model";
     "messages" := VArr [systemMessage "Be brief."; userMessage] ]}.

Definition forwardExample : Forward :=
  {| upstreamUrl := "https://u.example/v1/chat/completions";
     upstreamKey := "sk-upstream";
     upstreamBody := {[ "model" := VStr "upstream-model";
                        "messages" := VArr [systemMessage "Be brief."; userMessage] ]};
     modelDisplay := "Public-Model";
     modelActual := "upstream-model" |}.

End MoreTerms.

(** * Properties *)

(** ** Strings *)

Section StringFacts.
Import JsString.
Implicit Types s p r u v : string.

Lemma str_app_nil_l s : "" +:+ s = s.
Proof. reflexivity. Qed.

Lemma str_app_cons c s u : String c s +:+ u = String c (s +:+ u).
Proof. reflexivity. Qed.

Lemma str_app_nil_r s : s +:+ "" = s.
Proof. induction s as [|c s IH]; [done|]. by rewrite str_app_cons, IH. Qed.

Lemma str_app_assoc s u v : (s +:+ u) +:+ v = s +:+ (u +:+ v).
Proof. induction s as [|c s IH]; [done|]. by rewrite !str_app_cons, IH. Qed.

Lemma str_length_app s u :
  String.length (s +:+ u) = (String.length s + String.length u)%nat.
Proof. induction s as [|c s IH]; [done|]. rewrite str_app_cons. simpl. by rewrite IH. Qed.

Lemma startsWith_nil s : startsWith s "" = true.
Proof. by destruct s. Qed.

Lemma startsWith_app p r : startsWith (p +:+ r) p = true.
Proof.
  induction p as [|c p IH]; [apply startsWith_nil|].
  rewrite str_app_cons. simpl. by rewrite decide_True.
Qed.

Lemma drop_app_length p r : drop (String.length p) (p +:+ r) = r.
Proof.
  induction p as [|c p IH]; [by destruct r|]. by rewrite str_app_cons.
Qed.

Lemma take_app_length p r : take (String.length p) (p +:+ r) = p.
Proof.
  induction p as [|c p IH]; [by destruct r|].
  rewrite str_app_cons. simpl. by rewrite IH.
Qed.

Lemma take_drop n s : take n s +:+ drop n s = s.
Proof.
  revert s. induction n as [|n IH]; intros [|c s]; try done.
  simpl. by rewrite str_app_cons, IH.
Qed.

Lemma startsWith_inv s p :
  startsWith s p = true → s = p +:+ drop (String.length p) s.
Proof.
  revert s. induction p as [|c p IH]; intros s H.
  - by destruct s.
  - destruct s as [|d s]; [done|]. simpl in H.
    destruct (decide (c = d)) as [->|]; [|done].
    rewrite str_app_cons. simpl. f_equal. by apply IH.
Qed.

Lemma startsWith_iff s p : startsWith s p = true ↔ ∃ r, s = p +:+ r.
Proof.
  split.
  - intros H. eexists. by apply startsWith_inv.
  - intros [r ->]. apply startsWith_app.
Qed.

Lemma endsWith_app u p : endsWith (u +:+ p) p = true.
Proof.
  unfold endsWith. rewrite str_length_app.
  rewrite bool_decide_eq_true_2 by lia. simpl.
  replace (String.length u + String.length p - String.length p)%nat
    with (String.length u) by lia.
  by rewrite drop_app_length, bool_decide_eq_true_2.
Qed.

Lemma endsWith_inv s p :
  endsWith s p = true →
  s = take (String.length s - String.length p) s +:+ p.
Proof.
  unfold endsWith. intros [_ H]%andb_prop.
  apply bool_decide_eq_true_1 in H.
  by rewrite <- H at 2; rewrite take_drop.
Qed.

Lemma endsWith_iff s p : endsWith s p = true ↔ ∃ u, s = u +:+ p.
Proof.
  split.
  - intros H. eexists. by apply endsWith_inv.
  - intros [u ->]. apply endsWith_app.
Qed.

Lemma slice_0_m1_app u c : slice_0_m1 (u +:+ String c "") = u.
Proof.
  unfold slice_0_m1. rewrite str_length_app. simpl.
  replace (String.length u + 1 - 1)%nat with (String.length u) by lia.
  apply take_app_length.
Qed.

Lemma replace_unfold s p r :
  replace s p r =
  if startsWith s p then r +:+ drop (String.length p) s
  else match s with
       | EmptyString => EmptyString
       | String c s' => String c (replace s' p r)
       end.
Proof. by destruct s. Qed.

Lemma replace_prefix p r v : replace (p +:+ v) p r = r +:+ v.
Proof. by rewrite replace_unfold, startsWith_app, drop_app_length. Qed.

End StringFacts.

(** ** Upstream URL *)

Section UpstreamUrl.
Import JsString Proxy.

Lemma strip_slash_cases (apiBase : string) :
  let base := if endsWith apiBase "/" then slice_0_m1 apiBase else apiBase in
  apiBase = base +:+ "/" ∨ (apiBase = base ∧ ∀ b, apiBase ≠ b +:+ "/").
Proof.
  simpl. destruct (endsWith apiBase "/") eqn:E.
  - left. apply endsWith_iff in E as [u ->]. by rewrite slice_0_m1_app.
  - right. split; [done|]. intros b ->. by rewrite endsWith_app in E.
Qed.

Lemma query_after_v1 (p q rest : string) :
  "/v1" +:+ rest = p +:+ "?" +:+ q → ∃ p', rest = p' +:+ "?" +:+ q.
Proof.
  intros H. rewrite !str_app_cons, str_app_nil_l in H.
  destruct p as [|c1 [|c2 [|c3 p']]];
    rewrite ?str_app_cons, ?str_app_nil_l in H; simplify_eq.
  by exists p'.
Qed.

(** C7.  The upstream URL is the base without its trailing slash,
    followed by the client path; when that base ends with "/v1" and the
    client path starts with "/v1", the client path loses this prefix
    first.  A query string on the client path is kept as it is.  The two
    URLs given as examples come out as stated. *)
Theorem buildUpstreamUrl_rule (apiBase clientPath : string) :
  (∃ base,
     (apiBase = base +:+ "/" ∨ (apiBase = base ∧ ∀ b, apiBase ≠ b +:+ "/")) ∧
     ((∃ b rest, base = b +:+ "/v1" ∧ clientPath = "/v1" +:+ rest ∧
                 buildUpstreamUrl apiBase clientPath = base +:+ rest)
      ∨ (((∀ b, base ≠ b +:+ "/v1") ∨ (∀ rest, clientPath ≠ "/v1" +:+ rest)) ∧
         buildUpstreamUrl apiBase clientPath = base +:+ clientPath))) ∧
  (∀ p q, clientPath = p +:+ "?" +:+ q →
          ∃ pre, buildUpstreamUrl apiBase clientPath = pre +:+ "?" +:+ q) ∧
  buildUpstreamUrl "https://u.example/v1" "/v1/chat/completions"
    = "https://u.example/v1/chat/completions" ∧
  buildUpstreamUrl "https://u.example" "/v1/messages"
    = "https://u.example/v1/messages".
Proof.
  pose proof (strip_slash_cases apiBase) as Hbase. simpl in Hbase.
  unfold buildUpstreamUrl.
  set (base := if endsWith apiBase "/" then slice_0_m1 apiBase else apiBase) in *.
  split; [|split; [|split; reflexivity]].
  - exists base. split; [exact Hbase|].
    destruct (endsWith base "/v1") eqn:Eb.
    + destruct (startsWith clientPath "/v1") eqn:Ep.
      * left. apply endsWith_iff in Eb as [b Hb].
        apply startsWith_iff in Ep as [rest ->].
        exists b, rest. split; [done|]. split; [done|].
        by rewrite replace_prefix.
      * right. split; [|done]. right. intros rest ->.
        by rewrite startsWith_app in Ep.
    + right. split; [|done]. left. intros b Hb.
      by rewrite Hb, endsWith_app in Eb.
  - intros p q ->.
    destruct (endsWith base "/v1"); [|by exists (base +:+ p); rewrite str_app_assoc].
    destruct (startsWith (p +:+ "?" +:+ q) "/v1") eqn:Ep;
      [|by exists (base +:+ p); rewrite str_app_assoc].
    apply startsWith_iff in Ep as [rest Hrest]. rewrite Hrest.
    rewrite replace_prefix, str_app_nil_l.
    symmetry in Hrest. apply query_after_v1 in Hrest as [p' ->].
    exists (base +:+ p'). by rewrite str_app_assoc.
Qed.

End UpstreamUrl.

(** ** Key records: lazy reset, migration, quota *)

Section KeyRecords.
Import Redis Proxy.

Ltac run_M :=
  unfold getKeyData, incrementUsage, redis_get, redis_set, getSettings,
    mbind, M_bind, mret, M_ret; simpl.

Lemma getKeyData_absent today key r :
  keys r !! key = None → getKeyData today key r = (r, None).
Proof. intros H. run_M. by rewrite H. Qed.

Lemma getKeyData_fresh today key r data limit usage :
  keys r !! key = Some data →
  Raw.daily_limit data = Some limit →
  Raw.usage_today data = Some usage →
  Raw.date usage = today →
  getKeyData today key r = (r, Some (of_raw data limit usage)).
Proof.
  intros H Hl Hu Hd. run_M. rewrite H, Hl, Hu.
  by rewrite decide_False by (by intros ?).
Qed.

Lemma getKeyData_stale today key r data limit usage :
  keys r !! key = Some data →
  Raw.daily_limit data = Some limit →
  Raw.usage_today data = Some usage →
  Raw.date usage ≠ today →
  let fresh := set_usage_today (of_raw data limit usage)
                 {| Raw.date := today; Raw.count := 0 |} in
  getKeyData today key r = (with_key r key (to_raw fresh), Some fresh).
Proof.
  intros H Hl Hu Hd. run_M. rewrite H, Hl, Hu.
  by rewrite decide_True.
Qed.

Lemma getKeyData_legacy today key r data :
  keys r !! key = Some data →
  Raw.daily_limit data = None ∨ Raw.usage_today data = None →
  getKeyData today key r
    = (with_key r key (to_raw (migrated today data)), Some (migrated today data)).
Proof.
  intros H Hl. run_M. rewrite H.
  destruct (Raw.daily_limit data), (Raw.usage_today data);
    by destruct Hl.
Qed.

Lemma with_key_lookup r key data : keys (with_key r key data) !! key = Some data.
Proof. apply lookup_insert_eq. Qed.

Lemma incrementUsage_after today key r r' (data : RedisKeyData) :
  getKeyData today key r = (r', Some data) →
  incrementUsage today key r =
    if decide (Raw.count (usage_today data) >= daily_limit data) then
      (r', {| allowed := false;
              currentUsage := Raw.count (usage_today data);
              limit := daily_limit data;
              reason := Some "daily_limit_reached" |})
    else
      (with_key r' key
         (to_raw (set_usage_today data
                    {| Raw.date := Raw.date (usage_today data);
                       Raw.count := Raw.count (usage_today data) + 1 |})),
       {| allowed := true;
          currentUsage := Raw.count (usage_today data) + 1;
          limit := daily_limit data;
          reason := None |}).
Proof.
  intros H. unfold incrementUsage, mbind, M_bind. rewrite H.
  by destruct (decide _).
Qed.

(** C5.  A stored record that has neither [daily_limit] nor
    [usage_today] is migrated by the first read: the limit is 50 times
    the legacy count ([max_concurrent_users], else [max_activations],
    else [max_ips]) or 100 without one, usage starts at [{today, 0}], the
    expiry stays, the session timeout is 15; the new record is written to
    the store, returned, and what the next read of the request returns.
    The record of the example becomes the record given for it. *)
Theorem getKeyData_migrates_legacy (today key : string) (r : db) (data : Raw.t) :
  keys r !! key = Some data →
  Raw.daily_limit data = None →
  Raw.usage_today data = None →
  ∃ newData : RedisKeyData,
    getKeyData today key r = (with_key r key (to_raw newData), Some newData) ∧
    daily_limit newData =
      from_option (λ n, n * 50) 100
        (Raw.max_concurrent_users data ∪ Raw.max_activations data ∪ Raw.max_ips data) ∧
    usage_today newData = {| Raw.date := today; Raw.count := 0 |} ∧
    expiry newData = Raw.expiry data ∧
    session_timeout_minutes newData = Some 15 ∧
    getKeyData today key (with_key r key (to_raw newData))
      = (with_key r key (to_raw newData), Some newData) ∧
    (data = legacyExample → to_raw newData = migratedExample today).
Proof.
  intros H Hl Hu. exists (migrated today data).
  split; [apply getKeyData_legacy; auto|].
  split. { unfold migrated, migratedLimit; simpl.
           by destruct (Raw.max_concurrent_users data),
                (Raw.max_activations data), (Raw.max_ips data). }
  do 3 (split; [done|]). split.
  - apply (getKeyData_fresh today key _ (to_raw (migrated today data))
             (migratedLimit data) {| Raw.date := today; Raw.count := 0 |});
      [apply with_key_lookup|done..].
  - by intros ->.
Qed.

Lemma getKeyData_migrates_legacy_witness :
  ∃ newData : RedisKeyData,
    getKeyData "2026-11-02" "k"
      {| keys := {[ "k" := legacyExample ]}; settings := None; api_profiles := None |}
    = (with_key {| keys := {[ "k" := legacyExample ]}; settings := None;
                   api_profiles := None |} "k" (to_raw newData), Some newData) ∧
    to_raw newData = migratedExample "2026-11-02".
Proof.
  destruct (getKeyData_migrates_legacy "2026-11-02" "k"
              {| keys := {[ "k" := legacyExample ]}; settings := None;
                 api_profiles := None |} legacyExample)
    as (newData & Hget & _ & _ & _ & _ & _ & Hex);
    [reflexivity..|].
  exists newData. split; [exact Hget|]. by apply Hex.
Defined.

Lemma incrementUsage_fresh today key r data limit usage :
  keys r !! key = Some data →
  Raw.daily_limit data = Some limit →
  Raw.usage_today data = Some usage →
  Raw.date usage = today →
  incrementUsage today key r =
    if decide (Raw.count usage >= limit)
    then (r, rejected (Raw.count usage) limit)
    else (with_key r key (with_count data usage (Raw.count usage + 1)),
          accepted (Raw.count usage + 1) limit).
Proof.
  intros H Hl Hu Hd.
  rewrite (incrementUsage_after _ _ _ _ _ (getKeyData_fresh _ _ _ _ _ _ H Hl Hu Hd)).
  simpl. destruct (decide _); [done|].
  unfold with_count, to_raw; simpl. by rewrite Hl.
Qed.

(** C4.  When the stored date is not today's, the read resets the usage
    to [{today, 0}] and writes the record back at once; the quota check
    of [incrementUsage] then runs on the count 0, whatever the count was
    before. *)
Theorem stale_date_resets_before_quota
    (today key : string) (r : db) (data : Raw.t) (limit : Z) (usage : Raw.usage) :
  keys r !! key = Some data →
  Raw.daily_limit data = Some limit →
  Raw.usage_today data = Some usage →
  Raw.date usage ≠ today →
  let reset := {| Raw.date := today; Raw.count := 0 |} in
  getKeyData today key r
    = (with_key r key (with_count data reset 0),
       Some (set_usage_today (of_raw data limit usage) reset)) ∧
  incrementUsage today key r =
    if decide (0 >= limit)
    then (with_key r key (with_count data reset 0), rejected 0 limit)
    else (with_key (with_key r key (with_count data reset 0)) key
            (with_count data reset 1),
          accepted 1 limit).
Proof.
  intros H Hl Hu Hd reset.
  pose proof (getKeyData_stale _ _ _ _ _ _ H Hl Hu Hd) as Hget. simpl in Hget.
  assert (to_raw (set_usage_today (of_raw data limit usage) reset)
          = with_count data reset 0) as Hraw.
  { unfold with_count, to_raw; simpl. by rewrite Hl. }
  fold reset in Hget. rewrite Hraw in Hget. split; [exact Hget|].
  rewrite (incrementUsage_after _ _ _ _ _ Hget). simpl.
  destruct (decide _); [done|].
  unfold with_count, to_raw; simpl. by rewrite Hl.
Qed.

Lemma stale_date_resets_before_quota_witness :
  (incrementUsage "2026-11-02" "k"
     {| keys := {[ "k" := staleExample ]}; settings := None;
        api_profiles := None |}).2
  = accepted 1 5.
Proof.
  pose proof (stale_date_resets_before_quota "2026-11-02" "k"
                {| keys := {[ "k" := staleExample ]}; settings := None;
                   api_profiles := None |}
                staleExample 5 {| Raw.date := "2026-11-01"; Raw.count := 5 |}
                eq_refl eq_refl eq_refl ltac:(discriminate)) as [_ H].
  simpl in H. by rewrite H.
Defined.

End KeyRecords.

Section QuotaStage.
Import Redis Proxy.

Lemma reads_only_ret {A} (a : A) : reads_only (H_ret a).
Proof. by intros r. Qed.

Lemma reads_only_reply {A} resp : reads_only (@reply A resp).
Proof. by intros r. Qed.

Lemma reads_only_liftR {A} (m : result A) : reads_only (liftR m).
Proof. by destruct m. Qed.

Lemma reads_only_bind {A B} (m : H A) (k : A → H B) :
  reads_only m → (∀ a, reads_only (k a)) → reads_only (H_bind m k).
Proof.
  intros Hm Hk r. unfold H_bind. specialize (Hm r).
  destruct (m r) as [r' [resp|a]]; simpl in *; subst; [done|]. apply Hk.
Qed.

Lemma reads_only_getSettings : reads_only (liftM getSettings).
Proof. by intros r. Qed.

Lemma reads_only_getAPIProfile profileId : reads_only (liftM (getAPIProfile profileId)).
Proof. by intros r. Qed.

Lemma reads_only_routeStage env clientPath keyData settings :
  reads_only (routeStage env clientPath keyData settings).
Proof.
  unfold routeStage. apply reads_only_bind.
  - destruct (selected_api_profile_id keyData) as [profileId|];
      [|apply reads_only_ret].
    destruct (decide _); [apply reads_only_ret|].
    apply reads_only_bind; [apply reads_only_getAPIProfile|].
    intros [profile|]; [|apply reads_only_ret].
    destruct (APIProfile.is_active profile); apply reads_only_ret.
  - intros selected. simpl.
    destruct (from_option _ _ selected) as [k|]; [|apply reads_only_reply].
    destruct (decide _); [apply reads_only_reply|apply reads_only_ret].
Qed.

Lemma reads_only_modelStage modelDisplay modelActual requestBody :
  reads_only (modelStage modelDisplay modelActual requestBody).
Proof.
  unfold modelStage. apply reads_only_bind; [apply reads_only_liftR|].
  intros requested. destruct (negb _); [apply reads_only_reply|].
  destruct requestBody; apply reads_only_ret.
Qed.

Lemma reads_only_prepare env clientPath keyData requestBody :
  reads_only (prepare env clientPath keyData requestBody).
Proof.
  unfold prepare.
  apply reads_only_bind; [apply reads_only_getSettings|]. intros settings.
  apply reads_only_bind; [apply reads_only_routeStage|]. intros route.
  apply reads_only_bind; [apply reads_only_modelStage|]. intros body.
  apply reads_only_bind; [apply reads_only_liftR|]. intros body'.
  apply reads_only_ret.
Qed.

Lemma quotaExceeded_fields (u : UsageResult) :
  ∃ body, quotaExceeded u = Json 429 body ∧
          body !! "current_usage" = Some (VNum (currentUsage u)) ∧
          body !! "daily_limit" = Some (VNum (limit u)).
Proof. eexists. split; [reflexivity|]. by split. Qed.

Lemma authenticate_ok env req r token data limit usage :
  authorization req = Some ("Bearer " +:+ token) →
  keys r !! token = Some data →
  Raw.daily_limit data = Some limit →
  Raw.usage_today data = Some usage →
  Raw.date usage = today_auth env →
  isExpired env (Raw.expiry data) = false →
  authenticate env req r = (r, inr (token, of_raw data limit usage)).
Proof.
  intros Ha H Hl Hu Hd He. unfold authenticate. rewrite Ha.
  rewrite startsWith_app.
  rewrite bool_decide_eq_true_2 by done.
  change (negb true || negb true) with false. cbv iota.
  rewrite replace_prefix, str_app_nil_l.
  unfold H_bind, liftM.
  rewrite (getKeyData_fresh _ _ _ _ _ _ H Hl Hu Hd). simpl.
  by rewrite He.
Qed.

Lemma quotaStage_countable env token keyData requestBody r :
  hasNewUserMessage requestBody = Ok true →
  quotaStage env token keyData requestBody r =
    let '(r', u) := incrementUsage (today_quota env) token r in
    if allowed u then (r', inr u) else (r', inl (quotaExceeded u)).
Proof.
  intros Hc. unfold quotaStage. rewrite Hc. unfold H_bind; simpl.
  unfold liftM. destruct (incrementUsage _ _ r) as [r' u].
  by destruct (allowed u).
Qed.

(** C1.  A countable request on a record dated today: when the count has
    reached the limit the handler answers 429 with [current_usage] the
    stored count and [daily_limit] the stored limit, and the database is
    as before; otherwise the quota stage lets the request proceed after
    storing the whole record with the count raised by one, and that is the
    database the handler leaves. *)
Theorem quota_stage_rule (env : Env) (req : Request) (r : db) (token : string)
    (data : Raw.t) (limit : Z) (usage : Raw.usage) :
  method req = "POST" →
  authorization req = Some ("Bearer " +:+ token) →
  keys r !! token = Some data →
  Raw.daily_limit data = Some limit →
  Raw.usage_today data = Some usage →
  Raw.date usage = today_auth env →
  Raw.date usage = today_quota env →
  isExpired env (Raw.expiry data) = false →
  hasNewUserMessage (body req) = Ok true →
  if decide (Raw.count usage >= limit) then
    ∃ reply_body,
      handler env req r = (r, inl (Json 429 reply_body)) ∧
      reply_body !! "current_usage" = Some (VNum (Raw.count usage)) ∧
      reply_body !! "daily_limit" = Some (VNum limit)
  else
    quotaStage env token (of_raw data limit usage) (body req) r
      = (with_key r token (with_count data usage (Raw.count usage + 1)),
         inr (accepted (Raw.count usage + 1) limit)) ∧
    (handler env req r).1
      = with_key r token (with_count data usage (Raw.count usage + 1)).
Proof.
  intros Hm Ha H Hl Hu Hd1 Hd2 He Hc.
  pose proof (incrementUsage_fresh _ _ _ _ _ _ H Hl Hu Hd2) as Hinc.
  pose proof (quotaStage_countable env token (of_raw data limit usage) _ r Hc) as Hq.
  assert (handler env req r = pipeline env req r) as Hh.
  { unfold handler. rewrite Hm. by repeat case_decide. }
  rewrite Hinc in Hq. rewrite Hh. clear Hh Hinc.
  assert (pipeline env req r =
          match quotaStage env token (of_raw data limit usage) (body req) r with
          | (r', inl resp) => (r', inl resp)
          | (r', inr _) =>
              prepare env (or_else (url req) "/v1/chat/completions")
                (of_raw data limit usage) (body req) r'
          end) as ->.
  { unfold pipeline, H_bind at 1.
    by rewrite (authenticate_ok _ _ _ _ _ _ _ Ha H Hl Hu Hd1 He). }
  rewrite Hq.
  destruct (decide (Raw.count usage >= limit)); simpl.
  - destruct (quotaExceeded_fields (rejected (Raw.count usage) limit))
      as (reply_body & -> & ? & ?).
    by exists reply_body.
  - split; [done|]. apply reads_only_prepare.
Qed.

Lemma quota_stage_rule_witness :
  ∃ reply_body,
    handler envExample
      {| method := "POST"; url := Some "/v1/messages";
         authorization := Some "Bearer k"; body := userTurn |}
      {| keys := {[ "k" := fullExample ]}; settings := None; api_profiles := None |}
    = ({| keys := {[ "k" := fullExample ]}; settings := None; api_profiles := None |},
       inl (Json 429 reply_body)) ∧
    reply_body !! "current_usage" = Some (VNum 5) ∧
    reply_body !! "daily_limit" = Some (VNum 5).
Proof.
  exact (quota_stage_rule envExample
           {| method := "POST"; url := Some "/v1/messages";
              authorization := Some "Bearer k"; body := userTurn |}
           {| keys := {[ "k" := fullExample ]}; settings := None; api_profiles := None |}
           "k" fullExample 5 {| Raw.date := "2026-11-02"; Raw.count := 5 |}
           eq_refl eq_refl eq_refl eq_refl eq_refl eq_refl eq_refl eq_refl eq_refl).
Defined.

End QuotaStage.

(** ** Which requests count *)

Section Classification.
Import Proxy.

Lemma blockIsToolResult_present block :
  present block = true →
  blockIsToolResult block = Ok (has_type_tool_result block).
Proof. by destruct block. Qed.

Lemma blockIsToolResult_absent block :
  present block = false → ∃ msg, blockIsToolResult block = Throw msg.
Proof. destruct block; try done; by eexists. Qed.

Lemma some_tool_result_false (blocks : list value) :
  some blockIsToolResult blocks = Ok false ↔
  forallb (λ block, present block && negb (has_type_tool_result block)) blocks = true.
Proof.
  induction blocks as [|block blocks IH]; [done|]. simpl.
  destruct (present block) eqn:Hp.
  - rewrite (blockIsToolResult_present _ Hp). simpl.
    destruct (has_type_tool_result block); simpl; [done|]. exact IH.
  - destruct (blockIsToolResult_absent _ Hp) as [msg ->]. by simpl.
Qed.

Lemma get_of_user lastMessage k :
  is_string (get_opt lastMessage "role") "user" = true →
  get lastMessage k = Ok (get_opt lastMessage k).
Proof. by destruct lastMessage. Qed.

Lemma hasNewUserMessage_messages (body : gmap string value) (messages : list value) :
  body !! "messages" = Some (VArr messages) →
  hasNewUserMessage (VObj body) =
    let lastMessage := List.last messages VUndefined in
    if is_string (get_opt lastMessage "role") "user" then
      match get_opt lastMessage "content" with
      | VStr _ => Ok true
      | VArr blocks =>
          bind (some blockIsToolResult blocks) (λ b, Ok (negb b))
      | content => Ok (negb (has_type_tool_result content))
      end
    else Ok false.
Proof.
  intros H. unfold hasNewUserMessage. simpl. rewrite H. simpl.
  destruct (is_string _ "user") eqn:Hr; [|done].
  rewrite (get_of_user _ _ Hr). simpl.
  by destruct (get_opt _ "content").
Qed.

(** The three messages of the specification's examples. *)
Example classification_examples :
  hasNewUserMessage (payload [message "user" (VStr "hi")]) = Ok true ∧
  hasNewUserMessage
    (payload [message "user" (VArr [VObj {[ "type" := VStr "tool_result" ]}])])
    = Ok false ∧
  hasNewUserMessage (payload [message "assistant" (VStr "hello")]) = Ok false.
Proof. by repeat split. Qed.

(** C3, as the code has it.  For a payload with a messages list, the
    request counts exactly when the last message has role "user" and its
    content is a string, or an array whose blocks are all present and
    none of which has type "tool_result", or any other value (a single
    object, a missing or null content, a number, a boolean) that has not
    type "tool_result" itself.  A last message of another role does not
    count, nor does array content with a "tool_result" block. *)
Theorem hasNewUserMessage_rule (body : gmap string value) (messages : list value) :
  body !! "messages" = Some (VArr messages) →
  (hasNewUserMessage (VObj body) = Ok true ↔ countable messages = true) ∧
  (is_string (get_opt (List.last messages VUndefined) "role") "user" = false →
   hasNewUserMessage (VObj body) = Ok false) ∧
  (∀ blocks,
     get_opt (List.last messages VUndefined) "content" = VArr blocks →
     existsb has_type_tool_result blocks = true →
     hasNewUserMessage (VObj body) ≠ Ok true).
Proof.
  intros H. rewrite (hasNewUserMessage_messages _ _ H). unfold countable. simpl.
  split; [|split].
  - destruct (is_string _ "user"); simpl; [|done].
    destruct (get_opt _ "content") as [| | | | |blocks|];
      try (by destruct (negb _)); try done.
    rewrite <- some_tool_result_false.
    destruct (some blockIsToolResult blocks) as [[]|]; simpl; naive_solver.
  - by intros ->.
  - intros blocks -> Hex. destruct (is_string _ "user"); [|done].
    destruct (some blockIsToolResult blocks) as [[]|] eqn:Hs; simpl; try done.
    apply some_tool_result_false in Hs. exfalso.
    apply existsb_exists in Hex as (block & Hin & Ht).
    rewrite forallb_forall in Hs. specialize (Hs _ Hin).
    rewrite Ht in Hs. by destruct (present block).
Qed.

Lemma hasNewUserMessage_rule_witness :
  hasNewUserMessage (VObj userNoContent) = Ok true ↔
  countable [VObj {[ "role" := VStr "user" ]}] = true.
Proof.
  exact (proj1 (hasNewUserMessage_rule userNoContent
                  [VObj {[ "role" := VStr "user" ]}] eq_refl)).
Defined.

(** C3, as stated, fails: a last message of role "user" without content
    counts, though its content is neither a string nor an object or
    array. *)
Lemma countable_as_specified_counterexample :
  ¬ (∀ (body : gmap string value) (messages : list value),
       body !! "messages" = Some (VArr messages) →
       (hasNewUserMessage (VObj body) = Ok true ↔
        countable_as_specified messages = true)).
Proof.
  intros Hall.
  specialize (Hall userNoContent [VObj {[ "role" := VStr "user" ]}] eq_refl).
  destruct Hall as [Hall _]. specialize (Hall eq_refl). discriminate Hall.
Qed.

End Classification.

(** ** Model policy *)

Section ModelPolicy.
Import Redis Proxy.


Lemma modelStage_mismatch modelDisplay modelActual (requestBody requested : value) r :
  get requestBody "model" = Ok requested →
  requested ≠ VStr modelDisplay →
  modelStage modelDisplay modelActual requestBody r
    = (r, inl (invalidModel requested modelDisplay)).
Proof.
  intros Hget Hne. unfold modelStage, H_bind. rewrite Hget. simpl.
  destruct requested as [| | | |s| |]; simpl; try done.
  rewrite bool_decide_eq_false_2; [done|]. intros ->. by apply Hne.
Qed.

Lemma modelStage_match modelDisplay modelActual (requestBody : gmap string value) r :
  requestBody !! "model" = Some (VStr modelDisplay) →
  modelStage modelDisplay modelActual (VObj requestBody) r
    = (r, inr (<["model" := VStr modelActual]> requestBody)).
Proof.
  intros E. unfold modelStage, H_bind. simpl. rewrite E. simpl.
  by rewrite bool_decide_eq_true_2.
Qed.



End ModelPolicy.

(** ** System prompt *)

Section SystemPrompt.
Import JsString Redis Proxy.

Lemma length_take n s : (String.length (take n s) ≤ n)%nat.
Proof.
  revert s. induction n as [|n IH]; intros [|c s]; simpl; try lia.
  specialize (IH s). lia.
Qed.

Lemma take_all n s : (String.length s ≤ n)%nat → take n s = s.
Proof.
  revert s. induction n as [|n IH]; intros [|c s]; simpl; try done; try lia.
  intros H. f_equal. apply IH. lia.
Qed.

(** Sanitising: trimmed, nothing when empty, at most 10000 characters. *)
Lemma sanitizeSystemPrompt_rule (p : string) :
  (trim p = "" → sanitizeSystemPrompt (Some p) = None) ∧
  (trim p ≠ "" →
   sanitizeSystemPrompt (Some p)
     = Some (take (Z.to_nat MAX_SYSTEM_PROMPT_LENGTH) (trim p))) ∧
  (∀ q, sanitizeSystemPrompt (Some p) = Some q →
        Z.of_nat (String.length q) ≤ 10000).
Proof.
  assert (trim p ≠ "" →
          sanitizeSystemPrompt (Some p)
            = Some (take (Z.to_nat MAX_SYSTEM_PROMPT_LENGTH) (trim p))) as Hsome.
  { intros Hne. unfold sanitizeSystemPrompt.
    destruct (decide (p = "")) as [->|]; [by destruct Hne|].
    rewrite decide_False by done.
    destruct (decide _) as [Hlong|Hshort]; [done|].
    rewrite take_all; [done|]. unfold MAX_SYSTEM_PROMPT_LENGTH in *. lia. }
  split; [|split; [exact Hsome|]].
  - intros He. unfold sanitizeSystemPrompt.
    destruct (decide (p = "")); [done|]. by rewrite decide_True.
  - intros q Hq. destruct (decide (trim p = "")) as [He|Hne].
    + unfold sanitizeSystemPrompt in Hq.
      destruct (decide (p = "")); [done|]. by rewrite decide_True in Hq.
    + rewrite (Hsome Hne) in Hq. simplify_eq.
      pose proof (length_take (Z.to_nat MAX_SYSTEM_PROMPT_LENGTH) (trim p)).
      unfold MAX_SYSTEM_PROMPT_LENGTH in *. lia.
Qed.

Lemma some_hasRoleSystem_false messages :
  Forall (λ msg, present msg = true) messages →
  some hasRoleSystem messages
    = Ok (existsb (λ msg, is_string (get_opt msg "role") "system") messages).
Proof.
  induction 1 as [|msg messages Hp _ IH]; [done|]. simpl.
  replace (hasRoleSystem msg) with (Ok (is_string (get_opt msg "role") "system"))
    by (by destruct msg).
  simpl. rewrite IH. by destruct (is_string _ "system").
Qed.

Lemma replaceSystemMessages_map q messages :
  Forall (λ msg, present msg = true) messages →
  replaceSystemMessages q messages
    = Ok (List.map (λ msg, if is_string (get_opt msg "role") "system"
                           then systemMessage q else msg) messages).
Proof.
  induction 1 as [|msg messages Hp _ IH]; [done|]. simpl.
  replace (hasRoleSystem msg) with (Ok (is_string (get_opt msg "role") "system"))
    by (by destruct msg).
  simpl. by rewrite IH.
Qed.

(** Injection, dialect by dialect.  With a [system] property on the
    payload it is replaced by the prompt.  On the chat dialect (no
    [system] property, no "/messages" in the path) every message of role
    "system" is replaced by one carrying the prompt, and when there is
    none such a message is put in front.  On a "/messages" path without a
    [system] property the handler throws before it sets the property. *)
Lemma injectSystemPrompt_rule (clientPath q : string) (requestBody : gmap string value) :
  (∀ existing, requestBody !! "system" = Some existing → existing ≠ VUndefined →
     injectSystemPrompt clientPath (Some q) requestBody
       = Ok (<["system" := VStr q]> requestBody)) ∧
  (requestBody !! "system" = None → includes clientPath "/messages" = true →
     ∃ msg, injectSystemPrompt clientPath (Some q) requestBody = Throw msg) ∧
  (∀ messages,
     requestBody !! "system" = None → includes clientPath "/messages" = false →
     requestBody !! "messages" = Some (VArr messages) →
     Forall (λ msg, present msg = true) messages →
     injectSystemPrompt clientPath (Some q) requestBody
       = Ok (<["messages" :=
                 VArr (if existsb (λ msg, is_string (get_opt msg "role") "system") messages
                       then List.map (λ msg, if is_string (get_opt msg "role") "system"
                                             then systemMessage q else msg) messages
                       else systemMessage q :: messages)]> requestBody)) ∧
  injectSystemPrompt clientPath None requestBody = Ok requestBody.
Proof.
  split; [|split; [|split; [|done]]].
  - intros existing He Hne. unfold injectSystemPrompt. rewrite He. simpl.
    by destruct existing.
  - intros He Hp. unfold injectSystemPrompt. rewrite He, Hp. simpl.
    by eexists.
  - intros messages He Hp Hm Hall. unfold injectSystemPrompt.
    rewrite He, Hp, Hm. simpl.
    rewrite (some_hasRoleSystem_false _ Hall). simpl.
    destruct (existsb _ messages); [|done].
    by rewrite (replaceSystemMessages_map _ _ Hall).
Qed.

(** C9, at the input where the code departs from it.  The settings
    carry the prompt "  Be brief.  " and the key is valid.  A request to
    "/v1/messages" whose payload has no [system] property is answered 500:
    the handler throws while it logs the original field, before it sets
    the property.  The same payload with a [system] property goes upstream
    with [system] replaced by "Be brief.", and on "/v1/chat/completions" a
    system message with that prompt is put in front of the messages. *)
Theorem systemPrompt_messages_path_without_system :
  handler envExample (post "/v1/messages" userTurn) dbExample
    = (afterOneRequest,
       inl (internalError "Cannot read properties of undefined (reading 'substring')")) ∧
  sentUpstream (handler envExample (post "/v1/messages" userTurnWithSystem) dbExample)
    = Some {[ "model" := VStr "upstream-model";
             "system" := VStr "Be brief.";
             "messages" := VArr [VObj {[ "role" := VStr "user"; "content" := VStr "hi" ]}] ]} ∧
  sentUpstream (handler envExample (post "/v1/chat/completions" userTurn) dbExample)
    = Some {[ "model" := VStr "upstream-model";
             "messages" := VArr [systemMessage "Be brief.";
                                 VObj {[ "role" := VStr "user"; "content" := VStr "hi" ]}] ]}.
Proof. split; [|split]; by vm_compute. Qed.

End SystemPrompt.

(** ** Saving the settings *)

Section SaveSettings.
Import Redis Proxy SettingsSave.

Variable verifyToken : string → bool.
Variable validURL : string → bool.

(** C10.  A save that passes the checks answers 200 and stores settings
    with the given URL and key.  A [model_display] or [model_actual] that
    is not given keeps the stored value, and without a stored value
    becomes "Claude-Opus-4.5-VIP" and "claude-3-5-haiku-20241022"; a
    [system_prompt] that is not given keeps the stored one, or is empty;
    the per-model configurations are the stored ones.  Keys and profiles
    are not touched. *)
Theorem saveSettings_frame (req : Request) (r : db) (token apiUrl apiKey : string) :
  method req = "POST" →
  authorization req = Some ("Bearer " +:+ token) →
  verifyToken token = true →
  api_url (body req) = VStr apiUrl → apiUrl ≠ "" →
  api_key (body req) = VStr apiKey → apiKey ≠ "" →
  validURL apiUrl = true →
  ∃ (saved : ProxySettings.t) (r' : db),
    handler verifyToken validURL req r
      = (r', Json 200 {[ "success" := VBool true;
                         "message" := VStr "Settings saved successfully" ]}) ∧
    settings r' = Some saved ∧ keys r' = keys r ∧ api_profiles r' = api_profiles r ∧
    ProxySettings.api_url saved = apiUrl ∧
    ProxySettings.api_key saved = apiKey ∧
    (model_display (body req) = None →
       (∀ s, settings r = Some s → ProxySettings.model_display s ≠ "" →
             ProxySettings.model_display saved = ProxySettings.model_display s) ∧
       (settings r = None → ProxySettings.model_display saved = "Claude-Opus-4.5-VIP")) ∧
    (model_actual (body req) = None →
       (∀ s, settings r = Some s → ProxySettings.model_actual s ≠ "" →
             ProxySettings.model_actual saved = ProxySettings.model_actual s) ∧
       (settings r = None →
          ProxySettings.model_actual saved = "claude-3-5-haiku-20241022")) ∧
    (system_prompt (body req) = None →
       (∀ s p, settings r = Some s → ProxySettings.system_prompt s = Some p →
               ProxySettings.system_prompt saved = Some p) ∧
       (settings r ≫= ProxySettings.system_prompt = None →
          ProxySettings.system_prompt saved = Some "")) ∧
    (∀ s m, settings r = Some s → ProxySettings.models s = Some m →
            ProxySettings.models saved = Some m) ∧
    (settings r ≫= ProxySettings.models = None →
       ProxySettings.models saved = Some ∅).
Proof.
  intros Hm Ha Hv Hu Hune Hk Hkne Hvalid.
  unfold handler. rewrite Hm, Ha, Hu, Hk, startsWith_app.
  rewrite decide_False by (by intros ?).
  rewrite bool_decide_eq_true_2 by done.
  change (negb true || negb true) with false. cbv iota.
  rewrite replace_prefix, str_app_nil_l, Hv. simpl negb. cbv iota.
  rewrite !decide_False by done. rewrite Hvalid. simpl negb. cbv iota.
  unfold saveSettings, getSettings, set_settings, mbind, M_bind, mret, M_ret.
  simpl. eexists _, _. split; [reflexivity|]. simpl.
  do 5 (split; [done|]).
  split; [|split; [|split; [|split]]].
  - intros ->. simpl. split.
    + intros s -> Hs. simpl. by rewrite decide_False.
    + by intros ->.
  - intros ->. simpl. split.
    + intros s -> Hs. simpl. by rewrite decide_False.
    + by intros ->.
  - intros ->. split.
    + intros s p -> Hp. simpl. rewrite Hp. simpl.
      by destruct (decide (p = "")) as [->|].
    + by intros ->.
  - intros s m -> Hmodels. simpl. by rewrite Hmodels.
  - by intros ->.
Qed.

End SaveSettings.

Section SaveSettingsExample.
Import Redis Proxy SettingsSave.

Lemma saveSettings_frame_witness :
  ∃ (saved : ProxySettings.t) (r' : db),
    handler (λ _, true) (λ _, true) saveRequest dbExample
      = (r', Json 200 {[ "success" := VBool true;
                         "message" := VStr "Settings saved successfully" ]}) ∧
    settings r' = Some saved ∧
    ProxySettings.model_display saved = "Public-Model" ∧
    ProxySettings.model_actual saved = "upstream-model".
Proof.
  destruct (saveSettings_frame (λ _, true) (λ _, true) saveRequest dbExample
              "admin-token" "https://u.example/v1" "sk-new")
    as (saved & r' & Hh & Hs & _ & _ & _ & _ & Hd & Hact & _);
    [reflexivity|reflexivity|reflexivity|reflexivity|discriminate
    |reflexivity|discriminate|reflexivity|].
  exists saved, r'. split; [exact Hh|]. split; [exact Hs|]. split.
  - apply (proj1 (Hd eq_refl) settingsExample); [reflexivity|discriminate].
  - apply (proj1 (Hact eq_refl) settingsExample); [reflexivity|discriminate].
Defined.

End SaveSettingsExample.

(** ** Rewriting the response text *)

Section Rewrite.
Import JsString Proxy.
Implicit Types s p r u v w : string.

Lemma includes_unfold s p :
  includes s p =
  startsWith s p || match s with
                    | EmptyString => false
                    | String _ s' => includes s' p
                    end.
Proof. by destruct s. Qed.

Lemma includes_iff s p : includes s p = true ↔ ∃ u v, s = u +:+ p +:+ v.
Proof.
  split.
  - induction s as [|c s IH]; rewrite includes_unfold.
    + rewrite orb_false_r. intros [v ->]%startsWith_iff. by exists "", v.
    + intros [[v ->]%startsWith_iff|H]%orb_prop; [by exists "", v|].
      destruct (IH H) as (u & v & ->). by exists (String c u), v.
  - intros (u & v & ->). induction u as [|c u IH].
    + rewrite str_app_nil_l, includes_unfold. by rewrite startsWith_app.
    + rewrite str_app_cons, includes_unfold, IH. apply orb_true_r.
Qed.

Lemma first_match s p :
  includes s p = true →
  ∃ u v, s = u +:+ p +:+ v ∧ no_match_inside p u (p +:+ v).
Proof.
  induction s as [|c s IH]; rewrite includes_unfold.
  - rewrite orb_false_r. intros [v ->]%startsWith_iff.
    exists "", v. split; [done|]. intros [|] [|] w; by simpl.
  - destruct (startsWith (String c s) p) eqn:Hs.
    + intros _. apply startsWith_iff in Hs as [v ->].
      exists "", v. split; [done|]. intros [|] [|] w; by simpl.
    + simpl. intros H. destruct (IH H) as (u & v & -> & Hfirst).
      exists (String c u), v. split; [done|].
      intros [|c1 u1] u2 w Hu Hne Hw.
      * rewrite str_app_nil_l in Hu. subst u2.
        assert (startsWith (String c (u +:+ p +:+ v)) p = true) as Ht
            by (apply startsWith_iff; by exists w).
        by rewrite Ht in Hs.
      * rewrite str_app_cons in Hu. simplify_eq. by eapply Hfirst.
Qed.

Lemma replaceAll_go_cons c s p r :
  replaceAll_go O (String c s) p r =
  if startsWith (String c s) p
  then r +:+ replaceAll_go (String.length p - 1) s p r
  else String c (replaceAll_go O s p r).
Proof. reflexivity. Qed.

Lemma replaceAll_go_none s p r :
  includes s p = false → replaceAll_go O s p r = s.
Proof.
  induction s as [|c s IH]; [done|]. rewrite includes_unfold.
  intros [Hs Hi]%orb_false_elim. rewrite replaceAll_go_cons, Hs.
  f_equal. by apply IH.
Qed.

Lemma replaceAll_go_before p u rest r :
  no_match_inside p u rest →
  replaceAll_go O (u +:+ rest) p r = u +:+ replaceAll_go O rest p r.
Proof.
  induction u as [|c u IH]; intros Hfirst; [done|].
  rewrite !str_app_cons, replaceAll_go_cons.
  destruct (startsWith (String c (u +:+ rest)) p) eqn:Hs.
  - apply startsWith_iff in Hs as [w Hw].
    by destruct (Hfirst "" (String c u) w).
  - f_equal. apply IH. intros u1 u2 w -> Hne.
    by apply (Hfirst (String c u1) u2 w).
Qed.

Lemma replaceAll_go_skip x v p r :
  replaceAll_go (String.length x) (x +:+ v) p r = replaceAll_go O v p r.
Proof.
  induction x as [|c x IH]; [by destruct v|].
  by rewrite str_app_cons.
Qed.

Lemma replaceAll_go_match p v r :
  p ≠ "" → replaceAll_go O (p +:+ v) p r = r +:+ replaceAll_go O v p r.
Proof.
  intros Hp. pose proof (startsWith_app p v) as Hs.
  destruct p as [|c p]; [done|]. rewrite str_app_cons in *.
  rewrite replaceAll_go_cons, Hs. f_equal.
  replace (String.length (String c p) - 1)%nat with (String.length p)
    by (simpl; lia).
  apply replaceAll_go_skip.
Qed.

(** The scan of [replaceAll] replaces every occurrence. *)
Lemma replaceAll_spec s p r :
  p ≠ "" → ReplacedAll p r s (replaceAll s p r).
Proof.
  intros Hp.
  assert (replaceAll s p r = replaceAll_go O s p r) as -> by (by destruct p).
  remember (String.length s) as n eqn:Hn. revert s Hn.
  induction n as [n IH] using lt_wf_ind. intros s ->.
  destruct (includes s p) eqn:Hi.
  - destruct (first_match _ _ Hi) as (u & v & -> & Hfirst).
    rewrite (replaceAll_go_before _ _ _ _ Hfirst), (replaceAll_go_match _ _ _ Hp).
    apply ReplacedAll_first; [done|].
    apply (IH (String.length v)); [|done].
    rewrite !str_length_app. destruct p; [done|]. simpl. lia.
  - rewrite (replaceAll_go_none _ _ _ Hi). apply ReplacedAll_none.
    intros u v ->. assert (includes (u +:+ p +:+ v) p = true) as Ht
        by (apply includes_iff; eauto).
    by rewrite Ht in Hi.
Qed.

Lemma relayStream_map a d disconnect chunks :
  relayStream a d disconnect chunks
  = List.map (rewriteModelNames a d)
      (from_option (λ n, List.firstn n chunks) chunks disconnect).
Proof.
  revert disconnect. induction chunks as [|chunk chunks IH]; intros [[|n]|]; try done.
  - simpl. by rewrite (IH (Some n)).
  - simpl. by rewrite (IH None).
Qed.

(** C8, as the code has it.  For a model id without metacharacters and a
    display name without [$]: a streamed response is rewritten chunk by
    chunk, each chunk on its own, up to the chunk at which the client is
    seen gone; a buffered response is rewritten as one text.  On each such
    text six substitutions run one after the other, each replacing every
    occurrence of its pattern: the model id by the display name, then
    "Claude Code" by "Claude Opus", "claude-3-5-haiku" by the display name,
    "Haiku" by "Opus", "Sonnet" by "Opus" and "4.5 Sonnet" by "4.5 Opus",
    the fixed ones whatever the configured model. *)
Theorem response_rewrite_rule (modelActual modelDisplay : string) :
  plain_pattern modelActual = true →
  plain_replacement modelDisplay = true →
  (∀ chunks,
     relayStream modelActual modelDisplay None chunks
     = List.map (rewriteModelNames modelActual modelDisplay) chunks) ∧
  (∀ n chunks,
     relayStream modelActual modelDisplay (Some n) chunks
     = List.map (rewriteModelNames modelActual modelDisplay) (List.firstn n chunks)) ∧
  (∀ text,
     relayBuffered modelActual modelDisplay text
     = rewriteModelNames modelActual modelDisplay text) ∧
  (∀ text, ∃ t1 t2 t3 t4 t5,
     ReplacedAll modelActual modelDisplay text t1 ∧
     ReplacedAll "Claude Code" "Claude Opus" t1 t2 ∧
     ReplacedAll "claude-3-5-haiku" modelDisplay t2 t3 ∧
     ReplacedAll "Haiku" "Opus" t3 t4 ∧
     ReplacedAll "Sonnet" "Opus" t4 t5 ∧
     ReplacedAll "4.5 Sonnet" "4.5 Opus" t5
       (rewriteModelNames modelActual modelDisplay text)).
Proof.
  intros Hp _.
  assert (modelActual ≠ "") as Hne.
  { intros ->. by vm_compute in Hp. }
  split; [|split; [|split]].
  - intros chunks. by rewrite relayStream_map.
  - intros n chunks. by rewrite relayStream_map.
  - done.
  - intros text. unfold rewriteModelNames.
    do 5 eexists. repeat split; by apply replaceAll_spec.
Qed.

Lemma response_rewrite_rule_witness :
  relayStream "claude-x" "Public-Model" None
    ["model: claude-x, "; "by Claude Code on Sonnet"]
  = ["model: Public-Model, "; "by Claude Opus on Opus"].
Proof.
  rewrite (proj1 (response_rewrite_rule "claude-x" "Public-Model" eq_refl eq_refl)).
  reflexivity.
Defined.

(** C8, as stated, fails on a stream: an occurrence of the model id cut
    in two by a chunk boundary reaches the client as it is. *)
Lemma rewrites_whole_text_counterexample :
  ¬ (∀ modelActual modelDisplay chunks,
       plain_pattern modelActual = true →
       plain_replacement modelDisplay = true →
       rewrites_whole_text modelActual modelDisplay chunks).
Proof.
  intros Hall.
  specialize (Hall "claude-x" "Public-Model" ["model: clau"; "de-x"] eq_refl eq_refl).
  vm_compute in Hall. discriminate Hall.
Qed.

End Rewrite.

(** ** Requests at the same time *)

Section Atomicity.
Import Redis Concurrent.

Ltac run_M :=
  unfold step, check, incrementUsage, getKeyData, redis_get, redis_set,
    mbind, M_bind, mret, M_ret; simpl.

(** A request that runs alone through its three steps does what
    [incrementUsage] does. *)
Lemma step_alone today key r :
  (p1 ← step today key Start; p2 ← step today key p1; step today key p2) r
  = (u ← incrementUsage today key; mret (Done u)) r.
Proof.
  run_M. destruct (keys r !! key) as [data|]; [|done]. simpl.
  destruct (Raw.daily_limit data) as [limit|], (Raw.usage_today data) as [usage|];
    simpl; repeat (case_decide; simpl); try done.
Qed.

(** Two requests that both read the count 4 of 5 before either writes are
    both admitted, and the stored count ends at 5. *)
Lemma both_admitted :
  let out := run "2026-11-02" "k" [0; 1; 0; 1]%nat [Start; Start] lastSlotDb in
  out.2 = [Done (accepted 5 5); Done (accepted 5 5)] ∧
  keys out.1 !! "k"
    = Some (with_count lastSlot {| Raw.date := "2026-11-02"; Raw.count := 4 |} 5).
Proof. by vm_compute. Qed.

(** C2, as stated, fails: with one slot left, two requests whose steps
    alternate are both admitted; and with two slots left, a single request
    gives one admission, not two. *)
Lemma admits_exactly_counterexample :
  admittedCount (run "2026-11-02" "k" [0; 1; 0; 1]%nat [Start; Start] lastSlotDb).2
    = 2%nat ∧
  admittedCount (run "2026-11-02" "k" [0; 0]%nat [Start]
                   (with_key lastSlotDb "k" twoSlots)).2
    = 1%nat ∧
  ¬ admits_exactly_the_remaining_quota.
Proof.
  split; [by vm_compute|]. split; [by vm_compute|].
  intros Hall.
  specialize (Hall "2026-11-02" "k" lastSlotDb lastSlot 5
                {| Raw.date := "2026-11-02"; Raw.count := 4 |}
                2%nat [0; 1; 0; 1]%nat eq_refl eq_refl eq_refl eq_refl).
  vm_compute in Hall. specialize (Hall ltac:(discriminate) eq_refl).
  discriminate Hall.
Qed.

Lemma sequential_succ today key n r :
  sequential today key (S n) r =
  let '(r1, u) := incrementUsage today key r in
  let '(r2, rs) := sequential today key n r1 in
  (r2, u :: rs).
Proof.
  simpl. unfold mbind, M_bind, mret, M_ret.
  destruct (incrementUsage today key r) as [r1 u].
  by destruct (sequential today key n r1).
Qed.

(** C2, as the code has it.  When [N] countable requests for a key run
    one after the other and [k = daily_limit - count ≥ 0] remain, exactly
    [min N k] of them are admitted, the others are rejected with the limit
    as current usage, and the stored count ends at [count + min N k]. *)
Theorem sequential_admits_remaining_quota (today key : string) (N : nat) :
  ∀ (r : db) (data : Raw.t) (limit : Z) (usage : Raw.usage),
    keys r !! key = Some data →
    Raw.daily_limit data = Some limit →
    Raw.usage_today data = Some usage →
    Raw.date usage = today →
    0 ≤ limit - Raw.count usage →
    let k := Z.to_nat (limit - Raw.count usage) in
    let out := sequential today key N r in
    length out.2 = N ∧
    allowedCount out.2 = Nat.min N k ∧
    Forall (λ u, allowed u = true ∨ u = rejected limit limit) out.2 ∧
    ∃ data',
      keys out.1 !! key = Some data' ∧
      Raw.daily_limit data' = Some limit ∧
      Raw.usage_today data'
        = Some {| Raw.date := today;
                  Raw.count := Raw.count usage + Z.of_nat (Nat.min N k) |}.
Proof.
  induction N as [|n IH]; intros r data limit usage H Hl Hu Hd Hk k out.
  - simpl. split; [done|]. split; [done|]. split; [constructor|].
    exists data. split; [done|]. split; [done|].
    rewrite Hu. destruct usage as [d c]; simpl in *. subst d.
    do 2 f_equal. lia.
  - subst out. rewrite sequential_succ.
    rewrite (incrementUsage_fresh _ _ _ _ _ _ H Hl Hu Hd).
    destruct (decide (Raw.count usage >= limit)) as [Hfull|Hroom].
    + specialize (IH r data limit usage H Hl Hu Hd Hk).
      assert (Raw.count usage = limit) as Hc by lia.
      assert (k = O) as Hk0 by (subst k; lia).
      fold k in IH. rewrite Hk0 in *. rewrite Nat.min_0_r in *.
      destruct (sequential today key n r) as [r2 rs]. simpl in *.
      destruct IH as (Hlen & Hcount & Hall & Hstore).
      rewrite Nat.min_0_r in Hcount, Hstore.
      split; [by rewrite Hlen|]. split; [exact Hcount|].
      split; [|done]. constructor; [|done]. right. by rewrite Hc.
    + set (usage' := {| Raw.date := Raw.date usage;
                        Raw.count := Raw.count usage + 1 |}).
      set (data' := with_count data usage (Raw.count usage + 1)).
      specialize (IH (with_key r key data') data' limit usage'
                    (with_key_lookup _ _ _) Hl eq_refl Hd).
      simpl in IH. specialize (IH ltac:(lia)).
      assert (k = S (Z.to_nat (limit - (Raw.count usage + 1)))) as Hk1
          by (subst k; lia).
      rewrite Hk1.
      destruct (sequential today key n (with_key r key data')) as [r2 rs].
      simpl in *.
      destruct IH as (Hlen & Hcount & Hall & data2 & Hstore & Hl2 & Hu2).
      split; [by rewrite Hlen|]. split; [unfold allowedCount in *; simpl; lia|].
      split; [constructor; [by left|done]|].
      exists data2. split; [done|]. split; [done|].
      rewrite Hu2. do 2 f_equal. lia.
Qed.

Lemma sequential_admits_remaining_quota_witness :
  allowedCount (sequential "2026-11-02" "k" 3 lastSlotDb).2 = 1%nat.
Proof.
  exact (proj1 (proj2 (sequential_admits_remaining_quota "2026-11-02" "k" 3
                         lastSlotDb lastSlot 5
                         {| Raw.date := "2026-11-02"; Raw.count := 4 |}
                         eq_refl eq_refl eq_refl eq_refl
                         ltac:(vm_compute; discriminate)))).
Defined.

End Atomicity.

(** ** The key store: reads, quota and administration *)

Section KeyStore.
Import Redis RedisAdmin.

Ltac run_M :=
  unfold getKeyData, incrementUsage, redis_get, redis_set, getSettings,
    mbind, M_bind, mret, M_ret; simpl.

Lemma to_raw_of_raw data limit usage :
  Raw.daily_limit data = Some limit →
  Raw.usage_today data = Some usage →
  to_raw (of_raw data limit usage) = data.
Proof. destruct data; simpl; by intros -> ->. Qed.

Lemma of_raw_to_raw d : of_raw (to_raw d) (daily_limit d) (usage_today d) = d.
Proof. by destruct d. Qed.

(** What a read gives for each shape of stored record. *)
Lemma getKeyData_cases today key r :
  match keys r !! key with
  | None => getKeyData today key r = (r, None)
  | Some data =>
      ∃ d, Raw.date (usage_today d) = today ∧
           (getKeyData today key r = (r, Some d) ∧ to_raw d = data
            ∨ getKeyData today key r = (with_key r key (to_raw d), Some d))
  end.
Proof.
  destruct (keys r !! key) as [data|] eqn:H; [|by apply getKeyData_absent].
  destruct (Raw.daily_limit data) as [limit|] eqn:Hl;
    [destruct (Raw.usage_today data) as [usage|] eqn:Hu|].
  - destruct (decide (Raw.date usage = today)) as [Hd|Hd].
    + exists (of_raw data limit usage). split; [done|]. left.
      split; [by apply getKeyData_fresh|by apply to_raw_of_raw].
    + eexists. split; [|right; by apply getKeyData_stale]. done.
  - exists (migrated today data). split; [done|]. right.
    apply getKeyData_legacy; auto.
  - exists (migrated today data). split; [done|]. right.
    apply getKeyData_legacy; auto.
Qed.

Lemma getKeyData_stored today key r r' d :
  getKeyData today key r = (r', Some d) →
  keys r' !! key = Some (to_raw d) ∧ Raw.date (usage_today d) = today ∧
  settings r' = settings r ∧ api_profiles r' = api_profiles r ∧
  ∀ k, k ≠ key → keys r' !! k = keys r !! k.
Proof.
  intros Hget. pose proof (getKeyData_cases today key r) as Hc.
  destruct (keys r !! key) as [data|] eqn:H; [|by rewrite Hc in Hget].
  destruct Hc as (d' & Hd & [[Hc Hraw]|Hc]); rewrite Hc in Hget; simplify_eq.
  - done.
  - split; [apply with_key_lookup|]. do 3 (split; [done|]).
    intros k Hk. simpl. by rewrite lookup_insert_ne.
Qed.

Lemma getKeyData_again today key r r' d :
  getKeyData today key r = (r', Some d) →
  getKeyData today key r' = (r', Some d).
Proof.
  intros Hget. destruct (getKeyData_stored _ _ _ _ _ Hget) as (Hk & Hd & _).
  rewrite (getKeyData_fresh today key r' (to_raw d) (daily_limit d) (usage_today d))
    by done.
  by rewrite of_raw_to_raw.
Qed.

(** X1.  (For key names other than the two reserved ones.)
    Reading a key twice on the same day is reading it once: the
    second read returns what the first returned and writes nothing, so
    the reset of a new day and the migration of a legacy record happen
    once. *)
Theorem getKeyData_idempotent (today key : string) (r : db) :
  access_key key = true →
  getKeyData today key (getKeyData today key r).1
  = ((getKeyData today key r).1, (getKeyData today key r).2).
Proof.
  intros _.
  destruct (getKeyData today key r) as [r' [d|]] eqn:Hget; simpl.
  - by apply (getKeyData_again today key r).
  - pose proof (getKeyData_cases today key r) as Hc.
    destruct (keys r !! key) eqn:H.
    + destruct Hc as (d & _ & [[Hc _]|Hc]); rewrite Hc in Hget; simplify_eq.
    + rewrite Hc in Hget. by simplify_eq.
Qed.

(** X2.  (For key names other than the two reserved ones.)
    A read touches nothing but the record of its key: settings,
    profiles and the other keys are as before.  An unknown key gives
    nothing and leaves the database as it is; a known key always gives a
    record, and afterwards the store holds that record, dated today. *)
Theorem getKeyData_frame (today key : string) (r : db) :
  access_key key = true →
  settings (getKeyData today key r).1 = settings r ∧
  api_profiles (getKeyData today key r).1 = api_profiles r ∧
  (∀ k, k ≠ key → keys (getKeyData today key r).1 !! k = keys r !! k) ∧
  (keys r !! key = None → getKeyData today key r = (r, None)) ∧
  (is_Some (keys r !! key) →
   ∃ d, (getKeyData today key r).2 = Some d ∧
        keys (getKeyData today key r).1 !! key = Some (to_raw d) ∧
        Raw.date (usage_today d) = today).
Proof.
  intros _.
  pose proof (getKeyData_cases today key r) as Hc.
  destruct (keys r !! key) as [data|] eqn:H.
  - destruct Hc as (d & Hd & Hc).
    assert (∃ r', getKeyData today key r = (r', Some d)) as [r' Hget]
        by (destruct Hc as [[-> _]| ->]; eauto).
    destruct (getKeyData_stored _ _ _ _ _ Hget) as (Hk & _ & Hs & Hp & Ho).
    rewrite Hget; simpl. do 3 (split; [done|]). split; [done|].
    intros _. by exists d.
  - rewrite Hc; simpl. do 4 (split; [done|]). by intros [? ?].
Qed.

(** X3.  (For key names other than the two reserved ones.)
    The contract of [incrementUsage], for any stored record and any
    date.  An admitted request leaves in the store a record dated today
    whose count is the usage reported, and that count is within the limit.
    A refused request carries a reason and leaves the store as the read
    left it; for an unknown key the reason is "invalid_key" and nothing is
    written. *)
Theorem incrementUsage_contract (today key : string) (r : db) :
  access_key key = true →
  let out := incrementUsage today key r in
  (allowed out.2 = true →
   currentUsage out.2 ≤ limit out.2 ∧
   ∃ data, keys out.1 !! key = Some data ∧
           Raw.daily_limit data = Some (limit out.2) ∧
           Raw.usage_today data
             = Some {| Raw.date := today; Raw.count := currentUsage out.2 |}) ∧
  (allowed out.2 = false →
   out.1 = (getKeyData today key r).1 ∧ is_Some (reason out.2)) ∧
  (keys r !! key = None →
   out = (r, {| allowed := false; currentUsage := 0; limit := 0;
                reason := Some "invalid_key" |})).
Proof.
  intros _.
  simpl. destruct (getKeyData today key r) as [r' [d|]] eqn:Hget.
  - rewrite (incrementUsage_after _ _ _ _ _ Hget).
    destruct (getKeyData_stored _ _ _ _ _ Hget) as (Hk & Hd & _).
    destruct (decide _) as [Hfull|Hroom]; simpl.
    + split; [done|]. split; [by eauto|].
      intros Hnone. pose proof (getKeyData_cases today key r) as Hc.
      rewrite Hnone in Hc. rewrite Hc in Hget. by simplify_eq.
    + split; [|split; [done|]].
      * intros _. split; [lia|]. eexists. split; [apply lookup_insert_eq|].
        simpl. by rewrite Hd.
      * intros Hnone. pose proof (getKeyData_cases today key r) as Hc.
        rewrite Hnone in Hc. rewrite Hc in Hget. by simplify_eq.
  - unfold incrementUsage, mbind, M_bind. rewrite Hget. simpl.
    split; [done|]. split; [by eauto|]. intros Hnone.
    pose proof (getKeyData_cases today key r) as Hc.
    rewrite Hnone in Hc. rewrite Hc in Hget. by simplify_eq.
Qed.

End KeyStore.

Section KeyAdministration.
Import Redis RedisAdmin.

Ltac run_admin :=
  unfold createKey, deleteKey, redis_del, setKeySelectedModel, getKeySelectedModel,
    setKeySelectedProfile, getAPIProfile, getAPIProfiles, set_api_profiles,
    saveAPIProfile, deleteAPIProfile, redis_set,
    mbind, M_bind, mret, M_ret; simpl.

(** X4.  (For key names other than the two reserved ones.)
    A key that was just created reads back, on the same day, with
    the given expiry, the given limit (100 when none is given), no usage
    and no selection, whatever was stored under the name before; its first
    countable request is admitted exactly when the limit is positive.  The
    other keys, the settings and the profiles are not touched. *)
Theorem createKey_reads_back (today keyName expiry : string) (dailyLimit : option Z)
    (r : db) :
  access_key keyName = true →
  let r1 := (createKey today keyName expiry dailyLimit r).1 in
  let limit := default 100 dailyLimit in
  (∃ d, getKeyData today keyName r1 = (r1, Some d) ∧
        Redis.expiry d = Some expiry ∧ daily_limit d = limit ∧
        usage_today d = {| Raw.date := today; Raw.count := 0 |} ∧
        selected_model d = None ∧ selected_api_profile_id d = None) ∧
  (incrementUsage today keyName r1).2
    = (if decide (0 >= limit) then rejected 0 limit else accepted 1 limit) ∧
  (∀ k, k ≠ keyName → keys r1 !! k = keys r !! k) ∧
  settings r1 = settings r ∧ api_profiles r1 = api_profiles r.
Proof.
  intros _.
  intros r1 limit.
  assert (keys r1 !! keyName
          = Some {| Raw.expiry := Some expiry;
                    Raw.daily_limit := Some limit;
                    Raw.usage_today := Some {| Raw.date := today; Raw.count := 0 |};
                    Raw.session_timeout_minutes := Some 15;
                    Raw.selected_model := None;
                    Raw.selected_api_profile_id := None;
                    Raw.max_concurrent_users := None;
                    Raw.max_activations := None;
                    Raw.max_ips := None |}) as Hk
      by apply lookup_insert_eq.
  split; [|split; [|split; [|done]]].
  - eexists. split; [by eapply getKeyData_fresh|done].
  - erewrite incrementUsage_fresh by done. simpl. by destruct (decide _).
  - intros k Hne. subst r1. run_admin. by rewrite lookup_insert_ne.
Qed.

(** X5.  (For key names other than the two reserved ones.)
    Deleting a key answers whether the key was there.  Afterwards the
    key is unknown: a read gives nothing and a countable request is refused
    as "invalid_key", without anything being written.  The other keys are
    not touched. *)
Theorem deleteKey_removes (today keyName : string) (r : db) :
  access_key keyName = true →
  let r1 := (deleteKey keyName r).1 in
  ((deleteKey keyName r).2 = true ↔ is_Some (keys r !! keyName)) ∧
  getKeyData today keyName r1 = (r1, None) ∧
  incrementUsage today keyName r1
    = (r1, {| allowed := false; currentUsage := 0; limit := 0;
              reason := Some "invalid_key" |}) ∧
  (∀ k, k ≠ keyName → keys r1 !! k = keys r !! k) ∧
  settings r1 = settings r ∧ api_profiles r1 = api_profiles r.
Proof.
  intros _.
  intros r1.
  assert (keys r1 !! keyName = None) as Hk by apply lookup_delete_eq.
  pose proof (getKeyData_absent today keyName r1 Hk) as Hget.
  split; [|split; [done|split; [|split; [|done]]]].
  - run_admin. destruct (decide (is_Some (keys r !! keyName))) as [Hs|Hn];
      simpl; naive_solver.
  - unfold incrementUsage, mbind, M_bind. by rewrite Hget.
  - intros k Hne. subst r1. run_admin. by rewrite lookup_delete_ne.
Qed.

(** X6.  (For key names other than the two reserved ones.)
    Selecting a model for a key.  On an unknown key the call answers
    false and writes nothing.  On a known key it answers true, and a
    following read gives the record the call itself read, with the selection
    changed and the limit, the usage and the expiry as they were;
    [getKeySelectedModel] then gives the model selected, and nothing after
    the selection was cleared or set to the empty string. *)
Theorem setKeySelectedModel_reads_back (today keyName : string)
    (modelId : option string) (r : db) :
  access_key keyName = true →
  match getKeyData today keyName r with
  | (_, None) => setKeySelectedModel today keyName modelId r = (r, false)
  | (_, Some d) =>
      let out := setKeySelectedModel today keyName modelId r in
      out.2 = true ∧
      getKeyData today keyName out.1 = (out.1, Some (set_selected_model d modelId)) ∧
      (getKeySelectedModel today keyName out.1).2
        = match modelId with
          | Some m => if decide (m = "") then None else Some m
          | None => None
          end
  end.
Proof.
  intros _.
  destruct (getKeyData today keyName r) as [r1 [d|]] eqn:Hget.
  - simpl.
    assert (setKeySelectedModel today keyName modelId r
            = (with_key r1 keyName (to_raw (set_selected_model d modelId)), true))
      as ->.
    { unfold setKeySelectedModel, mbind, M_bind. by rewrite Hget. }
    simpl. split; [done|].
    destruct (getKeyData_stored _ _ _ _ _ Hget) as (_ & Hd & _).
    assert (getKeyData today keyName
              (with_key r1 keyName (to_raw (set_selected_model d modelId)))
            = (with_key r1 keyName (to_raw (set_selected_model d modelId)),
               Some (set_selected_model d modelId))) as Hget2.
    { erewrite getKeyData_fresh;
        [|apply with_key_lookup|reflexivity|reflexivity|exact Hd].
      by destruct d. }
    split; [exact Hget2|].
    unfold getKeySelectedModel, mbind, M_bind. by rewrite Hget2.
  - pose proof (getKeyData_cases today keyName r) as Hc.
    destruct (keys r !! keyName) eqn:H.
    + destruct Hc as (d & _ & [[Hc _]|Hc]); rewrite Hc in Hget; simplify_eq.
    + rewrite Hc in Hget. simplify_eq.
      unfold setKeySelectedModel, mbind, M_bind. by rewrite Hc.
Qed.

(** X7.  Profiles, for ids that are not properties of [Object.prototype].
    A saved profile is found under its id and leaves the
    other profiles as they were; saving never fails.  Deleting a profile
    that is not there answers false and writes nothing; deleting one that
    is there answers true, after which it is not found, and the other
    profiles are as they were. *)
Theorem profiles_save_delete (profile : APIProfile.t) (profileId : string) (r : db) :
  own_name (APIProfile.id profile) = true →
  own_name profileId = true →
  let saved := (saveAPIProfile profile r).1 in
  let deleted := (deleteAPIProfile profileId r).1 in
  (saveAPIProfile profile r).2 = true ∧
  (getAPIProfile (APIProfile.id profile) saved).2 = Some profile ∧
  (∀ k, k ≠ APIProfile.id profile →
        (getAPIProfile k saved).2 = (getAPIProfile k r).2) ∧
  ((getAPIProfile profileId r).2 = None →
   deleteAPIProfile profileId r = (r, false)) ∧
  (is_Some ((getAPIProfile profileId r).2) →
   (deleteAPIProfile profileId r).2 = true ∧
   (getAPIProfile profileId deleted).2 = None) ∧
  (∀ k, k ≠ profileId →
        (getAPIProfile k deleted).2 = (getAPIProfile k r).2) ∧
  keys saved = keys r ∧ keys deleted = keys r ∧
  settings saved = settings r ∧ settings deleted = settings r.
Proof.
  intros _ _.
  run_admin. split; [done|]. split; [apply lookup_insert_eq|].
  split; [by intros k Hne; rewrite lookup_insert_ne|].
  destruct (default ∅ (api_profiles r) !! profileId) as [p|] eqn:Hp; simpl.
  - split; [done|]. split; [by intros _; rewrite lookup_delete_eq|].
    split; [by intros k Hne; rewrite lookup_delete_ne|done].
  - split; [done|]. split; [by intros [? ?]|done].
Qed.

(** X8.  (For key names other than the two reserved ones.)
    Selecting a profile for a key.  A profile that does not exist is
    refused: the call answers false and the selection of the key stays as
    it was.  An existing profile is accepted and becomes the selection a
    following read gives; without a profile id the selection is cleared. *)
Theorem setKeySelectedProfile_checks_profile (today keyName : string)
    (profileId : option string) (r : db) (d : RedisKeyData) (r1 : db) :
  access_key keyName = true →
  getKeyData today keyName r = (r1, Some d) →
  from_option own_name true profileId = true →
  let out := setKeySelectedProfile today keyName profileId r in
  match profileId with
  | Some pid =>
      match default ∅ (api_profiles r) !! pid with
      | None => out = (r1, false)
      | Some _ =>
          out.2 = true ∧
          getKeyData today keyName out.1
            = (out.1, Some (set_selected_api_profile_id d (Some pid)))
      end
  | None =>
      out.2 = true ∧
      getKeyData today keyName out.1
        = (out.1, Some (set_selected_api_profile_id d None))
  end.
Proof.
  intros _.
  intros Hget _ out.
  destruct (getKeyData_stored _ _ _ _ _ Hget) as (_ & Hd & _ & Hprof & _).
  assert (∀ sel,
            getKeyData today keyName
              (with_key r1 keyName (to_raw (set_selected_api_profile_id d sel)))
            = (with_key r1 keyName (to_raw (set_selected_api_profile_id d sel)),
               Some (set_selected_api_profile_id d sel))) as Hback.
  { intros sel. erewrite getKeyData_fresh;
      [|apply with_key_lookup|reflexivity|reflexivity|exact Hd].
    by destruct d. }
  subst out. unfold setKeySelectedProfile, mbind, M_bind. rewrite Hget.
  destruct profileId as [pid|]; [|by split; [|apply Hback]].
  unfold getAPIProfile, getAPIProfiles, mbind, M_bind, mret, M_ret. simpl.
  rewrite Hprof.
  destruct (default ∅ (api_profiles r) !! pid); [|done].
  split; [done|apply Hback].
Qed.

End KeyAdministration.

Section ModelConfigs.
Import Redis RedisAdmin Proxy.

Ltac run_admin :=
  unfold saveModelConfig, deleteModelConfig, getModelConfigs, getSettings,
    set_settings, mbind, M_bind, mret, M_ret; simpl.

(** X9.  Model configurations, for ids that are not properties of
    [Object.prototype].  Without settings nothing can be saved or deleted:
    both calls answer false and write nothing, and so does a delete when
    the settings have no configurations.  With settings, a saved
    configuration is found under its id; with configurations, a delete
    answers true, also for an id that is not there, after which the id is
    not found; in both cases the other configurations and the URL, key,
    model names and prompt of the settings are as they were. *)
Theorem modelConfigs_save_delete (modelId : string) (config : ModelConfig.t) (r : db) :
  own_name modelId = true →
  let saved := saveModelConfig modelId config r in
  let deleted := deleteModelConfig modelId r in
  match settings r with
  | None => saved = (r, false) ∧ deleted = (r, false)
  | Some s =>
      saved.2 = true ∧
      (getModelConfigs saved.1).2 !! modelId = Some config ∧
      (∀ k, k ≠ modelId →
            (getModelConfigs saved.1).2 !! k = (getModelConfigs r).2 !! k) ∧
      (∃ s', settings saved.1 = Some s' ∧ set_models s' ∅ = set_models s ∅) ∧
      match ProxySettings.models s with
      | None => deleted = (r, false)
      | Some _ =>
          deleted.2 = true ∧
          (getModelConfigs deleted.1).2 !! modelId = None ∧
          (∀ k, k ≠ modelId →
                (getModelConfigs deleted.1).2 !! k = (getModelConfigs r).2 !! k) ∧
          (∃ s', settings deleted.1 = Some s' ∧ set_models s' ∅ = set_models s ∅)
      end
  end.
Proof.
  intros _. run_admin. destruct (settings r) as [s|] eqn:Hs; [|done]. simpl.
  split; [done|]. split; [apply lookup_insert_eq|].
  split; [by intros k Hne; rewrite lookup_insert_ne|].
  split; [by eexists|].
  destruct (ProxySettings.models s) as [models|]; [|done]. simpl.
  split; [done|]. split; [apply lookup_delete_eq|].
  split; [by intros k Hne; rewrite lookup_delete_ne|by eexists].
Qed.


End ModelConfigs.

(** ** The handler, stage by stage *)

Section HandlerStages.
Import JsString Redis RedisAdmin Proxy.

Lemma handler_post env req r :
  method req = "POST" → handler env req r = pipeline env req r.
Proof. intros Hm. unfold handler. rewrite Hm. by repeat case_decide. Qed.

Lemma pipeline_authenticated env req r r1 token d :
  authenticate env req r = (r1, inr (token, d)) →
  pipeline env req r =
    match quotaStage env token d (body req) r1 with
    | (r2, inl resp) => (r2, inl resp)
    | (r2, inr _) =>
        prepare env (or_else (url req) "/v1/chat/completions") d (body req) r2
    end.
Proof. intros Ha. unfold pipeline, H_bind at 1. by rewrite Ha. Qed.

Lemma authenticate_bearer env req r token :
  authorization req = Some ("Bearer " +:+ token) →
  authenticate env req r =
    match getKeyData (today_auth env) token r with
    | (r1, Some d) =>
        if isExpired env (expiry d)
        then (r1, inl (Json 403 {[ "error" := VStr "API key has expired" ]}))
        else (r1, inr (token, d))
    | (r1, None) => (r1, inl (Json 401 {[ "error" := VStr "Invalid API key" ]}))
    end.
Proof.
  intros Ha. unfold authenticate. rewrite Ha, startsWith_app.
  rewrite bool_decide_eq_true_2 by done.
  change (negb true || negb true) with false. cbv iota.
  rewrite replace_prefix, str_app_nil_l. unfold H_bind, liftM.
  destruct (getKeyData (today_auth env) token r) as [r1 [d|]]; [|done].
  by destruct (isExpired env (expiry d)).
Qed.

(** X11.  (For key names other than the two reserved ones.)
    Requests that are turned away before the quota stage.  OPTIONS
    is answered 200 without a body and any other method but POST 405; a
    POST without an Authorization header, or with one that does not start
    with "Bearer ", is answered 401; so is one whose key is unknown.  None
    of these writes to the database.  A POST with an expired key is
    answered 403 and leaves the database as the read of the key left it:
    no usage is counted. *)
Theorem handler_turns_away (env : Env) (req : Request) (r : db) :
  (method req = "OPTIONS" → handler env req r = (r, inl (End_ 200))) ∧
  (method req ≠ "OPTIONS" → method req ≠ "POST" →
   handler env req r = (r, inl (Json 405 {[ "error" := VStr "Method not allowed" ]}))) ∧
  (method req = "POST" →
   (∀ token, authorization req ≠ Some ("Bearer " +:+ token)) →
   handler env req r
     = (r, inl (Json 401 {[ "error" := VStr "Missing or invalid Authorization header" ]}))) ∧
  (∀ token,
     access_key token = true →
     method req = "POST" →
     authorization req = Some ("Bearer " +:+ token) →
     keys r !! token = None →
     handler env req r = (r, inl (Json 401 {[ "error" := VStr "Invalid API key" ]}))) ∧
  (∀ token d,
     access_key token = true →
     method req = "POST" →
     authorization req = Some ("Bearer " +:+ token) →
     (getKeyData (today_auth env) token r).2 = Some d →
     isExpired env (expiry d) = true →
     handler env req r
       = ((getKeyData (today_auth env) token r).1,
          inl (Json 403 {[ "error" := VStr "API key has expired" ]}))).
Proof.
  split; [|split; [|split; [|split]]].
  - intros Hm. unfold handler. by rewrite Hm.
  - intros Ho Hp. unfold handler.
    rewrite decide_False by done. by rewrite decide_True.
  - intros Hm Hno. rewrite handler_post by done.
    unfold pipeline, H_bind, authenticate.
    destruct (authorization req) as [h|] eqn:Hh; [|done].
    destruct (startsWith h "Bearer ") eqn:Hs.
    + apply startsWith_iff in Hs as [token ->]. by destruct (Hno token).
    + simpl. by rewrite orb_true_r.
  - intros token _ Hm Ha Hk. rewrite handler_post by done.
    unfold pipeline, H_bind. rewrite (authenticate_bearer _ _ _ _ Ha).
    by rewrite (getKeyData_absent _ _ _ Hk).
  - intros token d _ Hm Ha Hget He. rewrite handler_post by done.
    unfold pipeline, H_bind. rewrite (authenticate_bearer _ _ _ _ Ha).
    destruct (getKeyData (today_auth env) token r) as [r1 [d'|]]; simpl in *;
      simplify_eq. by rewrite He.
Qed.

(** X12.  (For key names other than the two reserved ones.)
    A request that does not count costs nothing.  When the key is
    accepted and the last message is not a new user turn, the handler
    leaves the database as the read of the key left it, whatever the later
    stages answer; when the classification itself throws, the request is
    answered 500 and likewise nothing is counted. *)
Theorem uncounted_request_costs_nothing (env : Env) (req : Request) (r r1 : db)
    (token : string) (d : RedisKeyData) :
  access_key token = true →
  method req = "POST" →
  authorization req = Some ("Bearer " +:+ token) →
  getKeyData (today_auth env) token r = (r1, Some d) →
  isExpired env (expiry d) = false →
  (hasNewUserMessage (body req) = Ok false → (handler env req r).1 = r1) ∧
  (∀ msg, hasNewUserMessage (body req) = Throw msg →
          handler env req r = (r1, inl (internalError msg))).
Proof.
  intros _.
  intros Hm Ha Hget He. rewrite handler_post by done.
  assert (authenticate env req r = (r1, inr (token, d))) as Hauth.
  { rewrite (authenticate_bearer _ _ _ _ Ha), Hget. by rewrite He. }
  rewrite (pipeline_authenticated _ _ _ _ _ _ Hauth).
  split.
  - intros Hc. unfold quotaStage, H_bind at 1. rewrite Hc. simpl.
    apply reads_only_prepare.
  - intros msg Hc. unfold quotaStage, H_bind at 1. by rewrite Hc.
Qed.


(** X14.  Routing.  Without an active selected profile (no selection, a
    selection that points nowhere, or an inactive profile) the request is
    routed with the global URL, or the default base, and the global key, or
    the key of the environment, exactly as for a key without a selection;
    it fails with 500 only when neither key is there.  With an active
    selected profile the URL and the key are the profile's, and an empty
    profile key fails with 500 even when a global key exists. *)
Theorem routeStage_fallback (env : Env) (clientPath : string) (keyData : RedisKeyData)
    (s : option ProxySettings.t) (r : db) :
  let noKey :=
    Json 500 {[ "error" := VStr "API Key not configured";
                "message" := VStr "Please configure API Key in Admin Panel Settings" ]} in
  let globalKey :=
    match ProxySettings.api_key <$> s with
    | Some k => if decide (k = "") then API_KEY_GOC env else Some k
    | None => API_KEY_GOC env
    end in
  match selectedProfile r keyData with
  | None =>
      routeStage env clientPath keyData s r
        = routeStage env clientPath (set_selected_api_profile_id keyData None) s r ∧
      routeStage env clientPath keyData s r =
        match globalKey with
        | Some k =>
            if decide (k = "") then (r, inl noKey)
            else (r, inr {| apiUrl :=
                              buildUpstreamUrl
                                (or_else (ProxySettings.api_url <$> s) DEFAULT_API_BASE)
                                clientPath;
                            apiKey := k; profileModelActual := None |})
        | None => (r, inl noKey)
        end
  | Some profile =>
      routeStage env clientPath keyData s r =
        if decide (APIProfile.api_key profile = "") then (r, inl noKey)
        else (r, inr {| apiUrl := buildUpstreamUrl (APIProfile.api_url profile) clientPath;
                        apiKey := APIProfile.api_key profile;
                        profileModelActual := APIProfile.model_actual profile |})
  end.
Proof.
  intros noKey globalKey. unfold selectedProfile, routeStage, H_bind.
  fold globalKey.
  destruct (selected_api_profile_id keyData) as [pid|]; simpl.
  - destruct (decide (pid = "")); simpl.
    + split; [done|]. destruct globalKey as [k|]; [|done]. by destruct (decide _).
    + unfold liftM, getAPIProfile, getAPIProfiles, mbind, M_bind, mret, M_ret. simpl.
      destruct (default ∅ (api_profiles r) !! pid) as [profile|]; simpl.
      * destruct (APIProfile.is_active profile); simpl.
        -- by destruct (decide _).
        -- split; [done|]. destruct globalKey as [k|]; [|done]. by destruct (decide _).
      * split; [done|]. destruct globalKey as [k|]; [|done]. by destruct (decide _).
  - split; [done|]. destruct globalKey as [k|]; [|done]. by destruct (decide _).
Qed.

End HandlerStages.

(** ** The prompt that is injected *)

Section PromptFacts.
Import JsString Redis Proxy.

Lemma all_chars_rev_app f s acc :
  all_chars f (String.rev_app s acc) = all_chars f s && all_chars f acc.
Proof.
  revert acc. induction s as [|c s IH]; intros acc; simpl; [done|].
  rewrite IH. simpl. by destruct (f c), (all_chars f s).
Qed.

Lemma all_chars_rev f s : all_chars f (String.rev s) = all_chars f s.
Proof. unfold String.rev. rewrite all_chars_rev_app. simpl. apply andb_true_r. Qed.

Lemma rev_app_nil s acc : String.rev_app s acc = "" → s = "" ∧ acc = "".
Proof.
  revert acc. induction s as [|c s IH]; intros acc; simpl; [done|].
  intros H. by destruct (IH _ H).
Qed.

Lemma trimStart_nil s : trimStart s = "" ↔ all_chars is_white s = true.
Proof.
  induction s as [|c s IH]; simpl; [done|].
  destruct (is_white c); simpl; [exact IH|]. split; discriminate.
Qed.

Lemma trimStart_white s : all_chars is_white (trimStart s) = true → trimStart s = "".
Proof.
  induction s as [|c s IH]; simpl; [done|].
  destruct (is_white c) eqn:Hc; [exact IH|]. simpl. by rewrite Hc.
Qed.

Lemma trim_nil s : trim s = "" ↔ all_chars is_white s = true.
Proof.
  unfold trim, trimEnd. split.
  - intros H. apply rev_app_nil in H as [H _].
    apply trimStart_nil in H. rewrite all_chars_rev in H.
    apply trimStart_white in H. by apply trimStart_nil.
  - intros H. apply trimStart_nil in H. by rewrite H.
Qed.

Lemma take_nil n s : take n s = "" → n = O ∨ s = "".
Proof. destruct n, s; simpl; auto; discriminate. Qed.

(** X15.  The prompt after sanitising.  A prompt made of white space
    only, the empty one included, is dropped, and no other prompt is; a
    prompt that is kept is not empty and has at most 10000 characters. *)
Theorem sanitizeSystemPrompt_blank (p : string) :
  (sanitizeSystemPrompt (Some p) = None ↔ all_chars is_white p = true) ∧
  (∀ q, sanitizeSystemPrompt (Some p) = Some q →
        q ≠ "" ∧ Z.of_nat (String.length q) ≤ 10000).
Proof.
  destruct (sanitizeSystemPrompt_rule p) as (Hblank & Hkept & Hlen).
  destruct (decide (trim p = "")) as [He|Hne].
  - rewrite (Hblank He). split; [|done]. split; [|done].
    intros _. by apply trim_nil.
  - rewrite (Hkept Hne). split.
    + split; [done|]. intros Hw. by apply trim_nil in Hw.
    + intros q Hq. split; [|by apply Hlen; rewrite (Hkept Hne)].
      simplify_eq. intros Hq. apply take_nil in Hq as [Hq|Hq]; [|done].
      by vm_compute in Hq.
Qed.

End PromptFacts.

Section InjectionFacts.
Import JsString Redis Proxy.

Lemma hasRoleSystem_ok msg b :
  hasRoleSystem msg = Ok b →
  present msg = true ∧ b = is_string (get_opt msg "role") "system".
Proof. unfold hasRoleSystem. destruct msg; simpl; intros H; by simplify_eq. Qed.

Lemma some_hasRoleSystem_none messages :
  some hasRoleSystem messages = Ok false →
  Forall (λ msg, present msg = true) messages.
Proof.
  induction messages as [|msg messages IH]; [constructor|]. simpl.
  destruct (hasRoleSystem msg) as [b|] eqn:Hm; [|done]. simpl.
  apply hasRoleSystem_ok in Hm as [Hp _].
  destruct b; [done|]. intros H. constructor; auto.
Qed.

Lemma replaceSystemMessages_ok q messages messages' :
  replaceSystemMessages q messages = Ok messages' →
  Forall (λ msg, present msg = true) messages.
Proof.
  revert messages'. induction messages as [|msg messages IH]; intros messages';
    [constructor|]. simpl.
  destruct (hasRoleSystem msg) as [b|] eqn:Hm; [|done]. simpl.
  apply hasRoleSystem_ok in Hm as [Hp _].
  destruct (replaceSystemMessages q messages) as [rest|] eqn:Hr; [|done].
  intros _. constructor; eauto.
Qed.

Lemma isSystem_systemMessage q :
  is_string (get_opt (systemMessage q) "role") "system" = true.
Proof. done. Qed.

Lemma replaced_again q (messages : list value) :
  List.map (withSystemPrompt q) (List.map (withSystemPrompt q) messages)
  = List.map (withSystemPrompt q) messages.
Proof.
  induction messages as [|msg messages IH]; [done|]. simpl. rewrite IH.
  f_equal. unfold withSystemPrompt.
  destruct (is_string (get_opt msg "role") "system") eqn:Hs; [done|].
  by rewrite Hs.
Qed.

Lemma replaced_exists q (messages : list value) :
  existsb isSystem (List.map (withSystemPrompt q) messages) = existsb isSystem messages.
Proof.
  induction messages as [|msg messages IH]; [done|]. simpl. rewrite IH.
  f_equal. unfold withSystemPrompt, isSystem.
  by destruct (is_string (get_opt msg "role") "system") eqn:Hs.
Qed.

Lemma replaced_present q (messages : list value) :
  Forall (λ msg, present msg = true) messages →
  Forall (λ msg, present msg = true) (List.map (withSystemPrompt q) messages).
Proof.
  induction 1 as [|msg messages Hp _ IH]; [constructor|]. simpl.
  constructor; [|done]. unfold withSystemPrompt. by destruct (is_string _ _).
Qed.

Lemma replaced_none q (messages : list value) :
  existsb isSystem messages = false →
  List.map (withSystemPrompt q) messages = messages.
Proof.
  induction messages as [|msg messages IH]; [done|]. simpl.
  intros [Hm Hr]%orb_false_elim. rewrite IH by done.
  f_equal. unfold withSystemPrompt, isSystem in *. by rewrite Hm.
Qed.

Lemma injectSystemPrompt_chat path q (body : gmap string value) messages :
  body !! "system" = None → includes path "/messages" = false →
  body !! "messages" = Some (VArr messages) →
  Forall (λ msg, present msg = true) messages →
  injectSystemPrompt path (Some q) body
    = Ok (<["messages" :=
              VArr (if existsb isSystem messages
                    then List.map (withSystemPrompt q) messages
                    else systemMessage q :: messages)]> body).
Proof.
  intros Hs Hp Hm Hall.
  by apply (proj1 (proj2 (proj2 (injectSystemPrompt_rule path q body)))).
Qed.

(** X16.  Injecting the prompt a second time changes nothing: the payload
    that comes out of the injection is left as it is by the same
    injection.  And the injection touches nothing but the [system] and
    [messages] properties of the payload. *)
Theorem injectSystemPrompt_idempotent (path q : string)
    (body body' : gmap string value) :
  injectSystemPrompt path (Some q) body = Ok body' →
  injectSystemPrompt path (Some q) body' = Ok body' ∧
  (∀ k, k ≠ "system" → k ≠ "messages" → body' !! k = body !! k).
Proof.
  intros H. unfold injectSystemPrompt in H.
  destruct (bool_decide (is_Some (body !! "system")) || includes path "/messages")
    eqn:Ha.
  - destruct (default VUndefined (body !! "system")) eqn:He; simplify_eq;
      (split; [|by intros k Hk _; rewrite lookup_insert_ne]);
      (destruct (injectSystemPrompt_rule path q (<["system" := VStr q]> body))
         as (Hsys & _);
       rewrite (Hsys (VStr q)); [by rewrite insert_insert_eq
                                |apply lookup_insert_eq|done]).
  - apply orb_false_elim in Ha as [Hs Hp].
    apply bool_decide_eq_false_1 in Hs.
    assert (body !! "system" = None) as Hnone
        by (destruct (body !! "system"); [destruct Hs; eauto|done]).
    destruct (body !! "messages") as [[| | | | |messages|]|] eqn:Hm;
      simplify_eq;
      try (split; [|done]; unfold injectSystemPrompt;
           rewrite Hnone, Hp, Hm; by simpl).
    destruct (some hasRoleSystem messages) as [[]|] eqn:Hsome; simpl in H;
      [| |done].
    + destruct (replaceSystemMessages q messages) as [messages'|] eqn:Hr;
        simpl in H; simplify_eq.
      pose proof (replaceSystemMessages_ok _ _ _ Hr) as Hall.
      rewrite (replaceSystemMessages_map _ _ Hall) in Hr. simplify_eq.
      rewrite (some_hasRoleSystem_false _ Hall) in Hsome.
      injection Hsome as Hex. fold isSystem in Hex.
      change (List.map _ messages) with (List.map (withSystemPrompt q) messages).
      split; [|by intros k _ Hk; rewrite lookup_insert_ne].
      rewrite (injectSystemPrompt_chat path q _
                 (List.map (withSystemPrompt q) messages));
        [|by rewrite lookup_insert_ne|done|apply lookup_insert_eq
         |by apply replaced_present].
      rewrite (replaced_exists q messages), Hex.
      by rewrite (replaced_again q messages), insert_insert_eq.
    + simplify_eq. pose proof (some_hasRoleSystem_none _ Hsome) as Hall.
      rewrite (some_hasRoleSystem_false _ Hall) in Hsome.
      injection Hsome as Hex. fold isSystem in Hex.
      split; [|by intros k _ Hk; rewrite lookup_insert_ne].
      rewrite (injectSystemPrompt_chat path q _ (systemMessage q :: messages));
        [|by rewrite lookup_insert_ne|done|apply lookup_insert_eq
         |by constructor].
      rewrite insert_insert_eq. do 3 f_equal.
      change (existsb isSystem (systemMessage q :: messages)) with true.
      cbv iota. change (List.map (withSystemPrompt q) (systemMessage q :: messages))
        with (systemMessage q :: List.map (withSystemPrompt q) messages).
      f_equal. by apply (replaced_none q).
Qed.

End InjectionFacts.

(** ** More on the rewriting of responses *)

Section RewriteFacts.
Import JsString Proxy.
Implicit Types s p q r u v w x y : string.

Lemma includes_suffix c s q : includes (String c s) q = false → includes s q = false.
Proof. rewrite includes_unfold. by intros [_ H]%orb_false_elim. Qed.

Lemma includes_longer q1 u q2 s :
  includes s q2 = false → includes s (q1 +:+ q2 +:+ u) = false.
Proof.
  intros H. destruct (includes s (q1 +:+ q2 +:+ u)) eqn:E; [|done].
  apply includes_iff in E as (a & b & ->).
  assert (includes (a +:+ (q1 +:+ q2 +:+ u) +:+ b) q2 = true) as Ht.
  { apply includes_iff. exists (a +:+ q1), (u +:+ b). by rewrite !str_app_assoc. }
  by rewrite Ht in H.
Qed.

Lemma replaceAll_none s p r : includes s p = false → replaceAll s p r = s.
Proof. intros H. destruct p; [done|]. by apply replaceAll_go_none. Qed.

(** X17.  For a model id without metacharacters and a display name
    without [$]: a text in which neither the model id nor any of the fixed
    phrases occurs goes through the rewriting unchanged. *)
Theorem rewriteModelNames_passthrough (modelActual modelDisplay text : string) :
  plain_pattern modelActual = true →
  plain_replacement modelDisplay = true →
  includes text modelActual = false →
  includes text "Claude Code" = false →
  includes text "claude-3-5-haiku" = false →
  includes text "Haiku" = false →
  includes text "Sonnet" = false →
  rewriteModelNames modelActual modelDisplay text = text.
Proof.
  intros _ _ Ha Hc Hh Hk Hs. unfold rewriteModelNames.
  rewrite (replaceAll_none _ _ _ Ha), (replaceAll_none _ _ _ Hc),
    (replaceAll_none _ _ _ Hh), (replaceAll_none _ _ _ Hk),
    (replaceAll_none _ _ _ Hs).
  apply replaceAll_none. by apply (includes_longer "4.5 " "" "Sonnet").
Qed.

Lemma lacks_cons d c q :
  lacks d (String c q) = true → c ≠ d ∧ lacks d q = true.
Proof.
  unfold lacks. simpl. intros [Hc Hq]%andb_prop. split; [|done].
  intros ->. by rewrite bool_decide_eq_true_2 in Hc.
Qed.

Lemma startsWith_inserted d q w x y :
  lacks d q = true →
  startsWith (w +:+ String d x) q = true → startsWith (w +:+ y) q = true.
Proof.
  revert q. induction w as [|c w IH]; intros q Hq.
  - destruct q as [|c' q]; [intros; apply startsWith_nil|].
    apply lacks_cons in Hq as [Hc _]. rewrite !str_app_nil_l. simpl.
    by rewrite decide_False.
  - destruct q as [|c' q]; [intros; apply startsWith_nil|].
    apply lacks_cons in Hq as [_ Hq]. rewrite !str_app_cons. simpl.
    case_decide; [|done]. by apply IH.
Qed.

Lemma startsWith_replaced p d r q s w :
  lacks d q = true →
  startsWith (w +:+ replaceAll_go O s p (String d r)) q = true →
  startsWith (w +:+ s) q = true.
Proof.
  intros Hd. revert w. induction s as [|c s IH]; intros w; [done|].
  rewrite replaceAll_go_cons. destruct (startsWith (String c s) p).
  - rewrite str_app_cons. by apply startsWith_inserted.
  - replace (w +:+ String c (replaceAll_go O s p (String d r)))
      with ((w +:+ String c "") +:+ replaceAll_go O s p (String d r))
      by (by rewrite str_app_assoc).
    intros H. apply IH in H. by rewrite str_app_assoc in H.
Qed.

Lemma includes_after c q r x :
  lacks c r = true → includes (r +:+ x) (String c q) = includes x (String c q).
Proof.
  induction r as [|c' r IH]; [done|].
  intros [Hc Hr]%lacks_cons. rewrite str_app_cons, includes_unfold. simpl.
  rewrite decide_False by done. by apply IH.
Qed.

Lemma includes_nil_pattern c q : includes "" (String c q) = false.
Proof. done. Qed.

(** Replacing [p] by [r] brings no occurrence of [q] into a text without
    one, when [r] lacks the first character of [q] and [q] the first
    character of [r]. *)
Lemma replaceAll_go_brings_none p d r c q s k :
  lacks c (String d r) = true → lacks d (String c q) = true →
  includes s (String c q) = false →
  includes (replaceAll_go k s p (String d r)) (String c q) = false.
Proof.
  intros Hc Hd. revert k. induction s as [|a s IH]; intros k Hs; [done|].
  pose proof (includes_suffix _ _ _ Hs) as Hs'.
  destruct k as [|k]; [|by apply IH].
  rewrite replaceAll_go_cons. destruct (startsWith (String a s) p).
  - rewrite includes_after by done. by apply IH.
  - rewrite includes_unfold, (IH O Hs'), orb_false_r.
    destruct (startsWith (String a (replaceAll_go O s p (String d r))) (String c q))
      eqn:E; [|done].
    apply (startsWith_replaced p d r (String c q) s (String a "") Hd) in E.
    rewrite includes_unfold in Hs. apply orb_false_elim in Hs as [Hs _].
    rewrite str_app_cons, str_app_nil_l in E. by rewrite E in Hs.
Qed.

(** After replacing [p] by [r] no occurrence of [p] is left, when [r]
    lacks the first character of [p] and [p] the first character of [r]. *)
Lemma replaceAll_go_leaves_none d r c p s k :
  lacks c (String d r) = true → lacks d (String c p) = true →
  includes (replaceAll_go k s (String c p) (String d r)) (String c p) = false.
Proof.
  intros Hc Hd. revert k. induction s as [|a s IH]; intros k; [done|].
  destruct k as [|k]; [|by apply IH].
  rewrite replaceAll_go_cons. destruct (startsWith (String a s) (String c p)) eqn:Hm.
  - rewrite includes_after by done. by apply IH.
  - rewrite includes_unfold, (IH O), orb_false_r.
    destruct (startsWith (String a (replaceAll_go O s (String c p) (String d r)))
                (String c p)) eqn:E; [|done].
    apply (startsWith_replaced (String c p) d r (String c p) s (String a "") Hd) in E.
    rewrite str_app_cons, str_app_nil_l in E. by rewrite E in Hm.
Qed.

(** X18.  For a model id without metacharacters and a display name
    without [$], whatever the text: the rewritten text holds neither
    "Haiku" nor "Sonnet", also when the display name itself holds them; and
    the last of the six substitutions, of "4.5 Sonnet", never finds
    anything to replace: the rewriting is the first five. *)
Theorem rewriteModelNames_masks (modelActual modelDisplay text : string) :
  plain_pattern modelActual = true →
  plain_replacement modelDisplay = true →
  let five :=
    replaceAll
      (replaceAll
         (replaceAll
            (replaceAll (replaceAll text modelActual modelDisplay)
               "Claude Code" "Claude Opus")
            "claude-3-5-haiku" modelDisplay)
         "Haiku" "Opus")
      "Sonnet" "Opus" in
  rewriteModelNames modelActual modelDisplay text = five ∧
  includes (rewriteModelNames modelActual modelDisplay text) "Haiku" = false ∧
  includes (rewriteModelNames modelActual modelDisplay text) "Sonnet" = false.
Proof.
  intros _ _ five.
  assert (includes five "Sonnet" = false) as Hs
      by (by apply (replaceAll_go_leaves_none "O" "pus" "S" "onnet")).
  assert (includes five "Haiku" = false) as Hh.
  { apply (replaceAll_go_brings_none "Sonnet" "O" "pus" "H" "aiku"); [done..|].
    by apply (replaceAll_go_leaves_none "O" "pus" "H" "aiku"). }
  assert (rewriteModelNames modelActual modelDisplay text = five) as ->.
  { unfold rewriteModelNames. fold five. apply replaceAll_none.
    by apply (includes_longer "4.5 " "" "Sonnet"). }
  done.
Qed.

End RewriteFacts.

(** ** More on classification and on the settings save *)

Section ClassificationFacts.
Import Proxy.

(** X19.  Whether a request counts depends on its last message only: the
    messages before it and the other properties of the payload play no
    part.  A payload whose messages list is empty, or whose [messages] is
    missing or not a list, does not count. *)
Theorem hasNewUserMessage_last_only (body : gmap string value)
    (earlier : list value) (lastMessage : value) :
  hasNewUserMessage (VObj (<["messages" := VArr (earlier ++ [lastMessage])]> body))
    = hasNewUserMessage (VObj {[ "messages" := VArr [lastMessage] ]}) ∧
  hasNewUserMessage (VObj (<["messages" := VArr []]> body)) = Ok false ∧
  (match body !! "messages" with Some (VArr _) => False | _ => True end →
   hasNewUserMessage (VObj body) = Ok false).
Proof.
  split; [|split].
  - rewrite (hasNewUserMessage_messages _ (earlier ++ [lastMessage]))
      by apply lookup_insert_eq.
    rewrite (hasNewUserMessage_messages _ [lastMessage]) by done.
    by rewrite last_last.
  - by rewrite (hasNewUserMessage_messages _ []) by apply lookup_insert_eq.
  - unfold hasNewUserMessage. simpl.
    by destruct (body !! "messages") as [[]|].
Qed.

End ClassificationFacts.

Section SaveHandlerFacts.
Import JsString Redis Proxy SettingsSave.


End SaveHandlerFacts.

(** ** More on requests at the same time *)

Section InterleavingFacts.
Import Redis RedisAdmin Concurrent.

Lemma step_within today key limit c0 p r :
  store_within today key limit c0 r →
  proc_within today limit c0 p →
  store_within today key limit c0 (step today key p r).1 ∧
  proc_within today limit c0 (step today key p r).2.
Proof.
  intros (data & usage & Hk & Hl & Hu & Hd & Hc) Hp.
  destruct p as [|d|d|u]; simpl in *.
  - unfold step, check, redis_get, mbind, M_bind, mret, M_ret. simpl.
    rewrite Hk, Hl, Hu. rewrite decide_False by (by intros ?). simpl.
    split; [by exists data, usage|].
    destruct (decide _); simpl; [done|]. repeat split; try done; lia.
  - done.
  - destruct Hp as (Hdl & Hdd & Hdc). split; [|intros _; lia].
    exists (to_raw d), (usage_today d).
    split; [apply lookup_insert_eq|]. simpl. rewrite Hdl.
    repeat split; try done; lia.
  - split; [by exists data, usage|done].
Qed.

Lemma run_cons today key i schedule procs r :
  run today key (i :: schedule) procs r =
    match procs !! i with
    | Some p =>
        run today key schedule (<[i := (step today key p r).2]> procs)
          (step today key p r).1
    | None => run today key schedule procs r
    end.
Proof.
  simpl. unfold step_at, mbind, M_bind, mret, M_ret.
  destruct (procs !! i) as [p|]; [|done]. by destruct (step today key p r).
Qed.

Lemma run_within today key limit c0 schedule :
  ∀ procs r,
    store_within today key limit c0 r →
    Forall (proc_within today limit c0) procs →
    store_within today key limit c0 (run today key schedule procs r).1 ∧
    Forall (proc_within today limit c0) (run today key schedule procs r).2.
Proof.
  induction schedule as [|i schedule IH]; intros procs r Hr Hps; [done|].
  rewrite run_cons. destruct (procs !! i) as [p|] eqn:Hi; [|by apply IH].
  assert (proc_within today limit c0 p) as Hp
      by (eapply Forall_lookup_1; eauto).
  destruct (step_within today key limit c0 p r Hr Hp) as [Hr' Hp'].
  apply IH; [done|]. by apply Forall_insert.
Qed.

(** X21.  (For key names other than the two reserved ones.)
    However the steps of the requests for a key interleave, the
    stored count never passes the limit and never falls below the count at
    the start: on a record dated today whose count is within the limit, any
    schedule of any number of requests leaves a record dated today with a
    count between the initial one and the limit, and every request that
    was admitted reports a usage within the limit. *)
Theorem interleaving_keeps_limit (today key : string) (r : db) (data : Raw.t)
    (limit : Z) (usage : Raw.usage) (N : nat) (schedule : list nat) :
  access_key key = true →
  keys r !! key = Some data →
  Raw.daily_limit data = Some limit →
  Raw.usage_today data = Some usage →
  Raw.date usage = today →
  Raw.count usage ≤ limit →
  let out := run today key schedule (replicate N Start) r in
  (∃ data' usage',
     keys out.1 !! key = Some data' ∧ Raw.daily_limit data' = Some limit ∧
     Raw.usage_today data' = Some usage' ∧ Raw.date usage' = today ∧
     Raw.count usage ≤ Raw.count usage' ≤ limit) ∧
  Forall (λ p, ∀ u, p = Done u → allowed u = true → currentUsage u ≤ limit) out.2.
Proof.
  intros _.
  intros Hk Hl Hu Hd Hc out.
  destruct (run_within today key limit (Raw.count usage) schedule
              (replicate N Start) r) as [Hr Hps].
  { exists data, usage. repeat split; try done; lia. }
  { by apply Forall_replicate. }
  split; [exact Hr|].
  eapply Forall_impl; [exact Hps|]. intros p Hp u -> Ha.
  simpl in Hp. specialize (Hp Ha). lia.
Qed.

Lemma run_single today key schedule p r :
  run today key (0%nat :: schedule) [p] r
  = run today key schedule [(step today key p r).2] (step today key p r).1.
Proof. by rewrite run_cons. Qed.

(** X22.  (For key names other than the two reserved ones.)
    A request that takes its steps without another one in between
    does what one call of [incrementUsage] does: the interleaved runs
    contain the sequential behaviour. *)
Theorem run_alone_is_incrementUsage (today key : string) (r : db) :
  access_key key = true →
  run today key [0; 0; 0]%nat [Start] r
  = ((incrementUsage today key r).1, [Done (incrementUsage today key r).2]).
Proof.
  intros _.
  pose proof (step_alone today key r) as H.
  unfold mbind at 1 2 3, M_bind at 1 2 3, mret, M_ret in H.
  rewrite !run_single.
  destruct (step today key Start r) as [r1 p1]. cbn [fst snd] in *.
  destruct (step today key p1 r1) as [r2 p2]. cbn [fst snd] in *.
  destruct (incrementUsage today key r) as [r' u]. cbn [fst snd] in *.
  by rewrite H.
Qed.

End InterleavingFacts.

(** ** Administration and the handler together *)

Section Lifecycle.
Import JsString Redis RedisAdmin Proxy.

Lemma injectSystemPrompt_frame path systemPrompt (body body' : gmap string value) :
  injectSystemPrompt path systemPrompt body = Ok body' →
  ∀ k, k ≠ "system" → k ≠ "messages" → body' !! k = body !! k.
Proof.
  unfold injectSystemPrompt. intros H k Hs Hm.
  destruct systemPrompt as [q|]; [|by simplify_eq].
  destruct (_ || _).
  - destruct (default VUndefined (body !! "system")); simplify_eq;
      by rewrite lookup_insert_ne.
  - destruct (body !! "messages") as [[| | | | |messages|]|]; simplify_eq; try done.
    destruct (some hasRoleSystem messages) as [[]|]; simpl in H; [| |done].
    + destruct (replaceSystemMessages q messages); simpl in H; simplify_eq.
      by rewrite lookup_insert_ne.
    + simplify_eq. by rewrite lookup_insert_ne.
Qed.

Lemma is_string_iff v s : is_string v s = true ↔ v = VStr s.
Proof.
  destruct v; simpl; try (split; discriminate).
  rewrite bool_decide_eq_true. split; [by intros ->|by intros [= ->]].
Qed.

Lemma or_else_nonempty a b : b ≠ "" → or_else a b ≠ "".
Proof. intros Hb. unfold or_else. destruct a as [s|]; [|done]. by case_decide. Qed.

(** X23.  (For key names other than the two reserved ones.)
    A key from its creation to its deletion.  On the day a key is
    created with a positive limit, a countable POST that presents it and
    is not expired passes authentication and quota: the handler goes on to
    the later stages with the created record, and the store then holds a
    count of 1 for the key.  Once the key is deleted the same request is
    answered 401 and nothing is written. *)
Theorem key_lifecycle (env : Env) (req : Request) (r : db)
    (keyName expiry : string) (dailyLimit : option Z) :
  access_key keyName = true →
  method req = "POST" →
  authorization req = Some ("Bearer " +:+ keyName) →
  today_quota env = today_auth env →
  isExpired env (Some expiry) = false →
  hasNewUserMessage (body req) = Ok true →
  0 < default 100 dailyLimit →
  let created := (createKey (today_auth env) keyName expiry dailyLimit r).1 in
  let deleted := (deleteKey keyName created).1 in
  (∃ d r2,
     handler env req created
       = prepare env (or_else (url req) "/v1/chat/completions") d (body req) r2 ∧
     daily_limit d = default 100 dailyLimit ∧ Redis.expiry d = Some expiry ∧
     ∃ data, keys r2 !! keyName = Some data ∧
             Raw.usage_today data
               = Some {| Raw.date := today_auth env; Raw.count := 1 |}) ∧
  handler env req deleted
    = (deleted, inl (Json 401 {[ "error" := VStr "Invalid API key" ]})).
Proof.
  intros _.
  intros Hm Ha Ht He Hc Hpos created deleted. split.
  - set (stored :=
           {| Raw.expiry := Some expiry;
              Raw.daily_limit := Some (default 100 dailyLimit);
              Raw.usage_today := Some {| Raw.date := today_auth env; Raw.count := 0 |};
              Raw.session_timeout_minutes := Some 15;
              Raw.selected_model := None;
              Raw.selected_api_profile_id := None;
              Raw.max_concurrent_users := None;
              Raw.max_activations := None;
              Raw.max_ips := None |}).
    assert (keys created !! keyName = Some stored) as Hk by apply lookup_insert_eq.
    eexists _, _. rewrite handler_post by done.
    rewrite (pipeline_authenticated _ _ _ _ _ _
               (authenticate_ok env req created keyName stored _ _
                  Ha Hk eq_refl eq_refl eq_refl He)).
    rewrite (quotaStage_countable _ _ _ _ _ Hc).
    rewrite (incrementUsage_fresh _ _ _ _ _ _ Hk eq_refl eq_refl (eq_sym Ht)).
    simpl. rewrite decide_False by lia. simpl.
    split; [reflexivity|]. split; [done|]. split; [done|].
    eexists. split; [apply lookup_insert_eq|done].
  - rewrite handler_post by done. unfold pipeline, H_bind.
    rewrite (authenticate_bearer _ _ _ _ Ha).
    by rewrite getKeyData_absent by apply lookup_delete_eq.
Qed.

(** X24.  (For key names other than the two reserved ones.)
    Selecting a profile for a key reroutes its requests.  After a
    key has selected an existing profile, the record the handler reads for
    the key routes through that profile when the profile is active, with
    its URL, its key and its model, and a 500 when its key is empty; when
    the profile is not active the selection has no effect on the route. *)
Theorem selected_profile_routes (env : Env) (clientPath today keyName pid : string)
    (profile : APIProfile.t) (s : option ProxySettings.t) (r r1 : db)
    (d : RedisKeyData) :
  access_key keyName = true →
  getKeyData today keyName r = (r1, Some d) →
  default ∅ (api_profiles r) !! pid = Some profile →
  pid ≠ "" → own_name pid = true →
  let out := setKeySelectedProfile today keyName (Some pid) r in
  let d' := set_selected_api_profile_id d (Some pid) in
  out.2 = true ∧
  getKeyData today keyName out.1 = (out.1, Some d') ∧
  routeStage env clientPath d' s out.1 =
    if APIProfile.is_active profile then
      if decide (APIProfile.api_key profile = "") then
        (out.1, inl (Json 500 {[ "error" := VStr "API Key not configured";
                                 "message" := VStr "Please configure API Key in Admin Panel Settings" ]}))
      else
        (out.1, inr {| apiUrl := buildUpstreamUrl (APIProfile.api_url profile) clientPath;
                       apiKey := APIProfile.api_key profile;
                       profileModelActual := APIProfile.model_actual profile |})
    else routeStage env clientPath (set_selected_api_profile_id d None) s out.1.
Proof.
  intros _.
  intros Hget Hp Hne _ out d'.
  destruct (getKeyData_stored _ _ _ _ _ Hget) as (_ & Hd & _ & Hprof & _).
  assert (out = (with_key r1 keyName (to_raw d'), true)) as Hout.
  { subst out. unfold setKeySelectedProfile, mbind, M_bind. rewrite Hget.
    unfold getAPIProfile, getAPIProfiles, mbind, M_bind, mret, M_ret. simpl.
    by rewrite Hprof, Hp. }
  rewrite Hout. simpl. split; [done|]. split.
  - erewrite getKeyData_fresh;
      [|apply with_key_lookup|reflexivity|reflexivity|exact Hd].
    by destruct d.
  - unfold routeStage, H_bind. simpl. rewrite decide_False by done.
    unfold liftM, getAPIProfile, getAPIProfiles, mbind, M_bind, mret, M_ret. simpl.
    rewrite Hprof, Hp. simpl.
    destruct (APIProfile.is_active profile); simpl; [|done].
    by destruct (decide _).
Qed.

(** X25.  Settings that were saved never have an empty model name: after
    any save both names are there, the prompt and the model configurations
    are present, and the handler resolves the display name and the upstream
    model to the stored names, not to its own defaults. *)
Theorem saved_settings_name_models (apiUrl apiKey : string)
    (modelDisplay modelActual systemPrompt : option string) (r : db) :
  ∃ s, settings (saveSettings apiUrl apiKey modelDisplay modelActual systemPrompt r).1
         = Some s ∧
       ProxySettings.model_display s ≠ "" ∧ ProxySettings.model_actual s ≠ "" ∧
       is_Some (ProxySettings.system_prompt s) ∧ is_Some (ProxySettings.models s) ∧
       resolveModelDisplay (Some s) = ProxySettings.model_display s ∧
       resolveModelActual None (Some s) = ProxySettings.model_actual s.
Proof.
  eexists. split; [reflexivity|]. simpl.
  assert (∀ a b c, c ≠ "" → or_else a (or_else b c) ≠ "") as Hne
      by (intros; by do 2 apply or_else_nonempty).
  split; [by apply Hne|]. split; [by apply Hne|].
  split; [by eexists|]. split; [by eexists|].
  unfold resolveModelDisplay, resolveModelActual, or_else at 1 4. simpl.
  split; rewrite decide_False; try done; by apply Hne.
Qed.

(** X26.  What is forwarded.  Whenever the later stages produce a request
    for the upstream, the client had asked for the display name, the
    payload sent carries the upstream model under [model] and keeps every
    property of the client's payload except [model], [system] and
    [messages]; the upstream key is not empty, and nothing was written to
    the database. *)
Theorem forwarded_request (env : Env) (clientPath : string) (keyData : RedisKeyData)
    (requestBody : gmap string value) (r r' : db) (fwd : Forward) :
  prepare env clientPath keyData (VObj requestBody) r = (r', inr fwd) →
  r' = r ∧
  requestBody !! "model" = Some (VStr (modelDisplay fwd)) ∧
  upstreamBody fwd !! "model" = Some (VStr (modelActual fwd)) ∧
  modelDisplay fwd = resolveModelDisplay (settings r) ∧
  upstreamKey fwd ≠ "" ∧
  (∀ k, k ≠ "model" → k ≠ "system" → k ≠ "messages" →
        upstreamBody fwd !! k = requestBody !! k).
Proof.
  intros H. pose proof (reads_only_prepare env clientPath keyData (VObj requestBody) r)
    as Hro. rewrite H in Hro. simpl in Hro. subst r'. split; [done|].
  unfold prepare, H_bind at 1 in H. simpl in H.
  unfold H_bind at 1 in H.
  destruct (routeStage env clientPath keyData (settings r) r) as [r1 [resp|route]]
    eqn:Hroute; [done|].
  assert (apiKey route ≠ "") as Hkey.
  { unfold routeStage, H_bind in Hroute.
    repeat case_match; unfold H_ret, reply in *; by simplify_eq. }
  unfold H_bind at 1 in H.
  destruct (requestBody !! "model") as [requested|] eqn:Hm.
  - destruct (is_string requested (resolveModelDisplay (settings r))) eqn:Hreq;
      [apply is_string_iff in Hreq as ->
      |assert (requested ≠ VStr (resolveModelDisplay (settings r))) as Hne
         by (intros Heq; apply is_string_iff in Heq; by rewrite Heq in Hreq)].
    + rewrite (modelStage_match _ _ _ _ Hm) in H.
      unfold H_bind, liftR in H.
      destruct (injectSystemPrompt _ _ _) as [body'|] eqn:Hinj; [|done].
      unfold H_ret in H. simplify_eq. simpl.
      pose proof (injectSystemPrompt_frame _ _ _ _ Hinj) as Hframe.
      split; [done|]. split.
      { rewrite Hframe by done. apply lookup_insert_eq. }
      split; [done|]. split; [done|].
      intros k ? ? ?. rewrite Hframe by done. by rewrite lookup_insert_ne.
    + rewrite (modelStage_mismatch _ _ (VObj requestBody) requested) in H;
        [done|by simpl; rewrite Hm|done].
  - rewrite (modelStage_mismatch _ _ (VObj requestBody) VUndefined) in H;
      [done|by simpl; rewrite Hm|done].
Qed.

End Lifecycle.

(** ** The properties above at sample inputs *)

Section Samples.
Import JsString Redis RedisAdmin Proxy Concurrent.

Lemma getKeyData_idempotent_witness :
  getKeyData "2026-11-03" "k" (getKeyData "2026-11-03" "k" dbExample).1
  = ((getKeyData "2026-11-03" "k" dbExample).1,
     (getKeyData "2026-11-03" "k" dbExample).2).
Proof.
  exact (getKeyData_idempotent "2026-11-03" "k" dbExample eq_refl).
Defined.

Lemma getKeyData_frame_witness :
  settings (getKeyData "2026-11-03" "k" dbExample).1 = settings dbExample.
Proof.
  exact (proj1 (getKeyData_frame "2026-11-03" "k" dbExample eq_refl)).
Defined.

Lemma incrementUsage_contract_witness :
  incrementUsage "2026-11-02" "absent" dbExample
  = (dbExample, {| allowed := false; currentUsage := 0; limit := 0;
                   reason := Some "invalid_key" |}).
Proof.
  exact (proj2 (proj2 (incrementUsage_contract "2026-11-02" "absent" dbExample
                         eq_refl)) eq_refl).
Defined.

Lemma createKey_reads_back_witness :
  (incrementUsage "2026-11-02" "new"
     (createKey "2026-11-02" "new" "2027-01-01" (Some 0) dbExample).1).2
  = rejected 0 0.
Proof.
  exact (proj1 (proj2 (createKey_reads_back "2026-11-02" "new" "2027-01-01" (Some 0)
                         dbExample eq_refl))).
Defined.

Lemma deleteKey_removes_witness :
  getKeyData "2026-11-02" "k" (deleteKey "k" dbExample).1
  = ((deleteKey "k" dbExample).1, None).
Proof.
  exact (proj1 (proj2 (deleteKey_removes "2026-11-02" "k" dbExample eq_refl))).
Defined.

Lemma setKeySelectedModel_reads_back_witness :
  (getKeySelectedModel "2026-11-02" "k"
     (setKeySelectedModel "2026-11-02" "k" (Some "gemini") dbExample).1).2
  = Some "gemini".
Proof.
  exact (proj2 (proj2 (setKeySelectedModel_reads_back "2026-11-02" "k" (Some "gemini")
                         dbExample eq_refl))).
Defined.

Lemma run_alone_is_incrementUsage_witness :
  run "2026-11-02" "k" [0; 0; 0]%nat [Start] lastSlotDb
  = ((incrementUsage "2026-11-02" "k" lastSlotDb).1,
     [Done (incrementUsage "2026-11-02" "k" lastSlotDb).2]).
Proof.
  exact (run_alone_is_incrementUsage "2026-11-02" "k" lastSlotDb eq_refl).
Defined.

Lemma profiles_save_delete_witness :
  (getAPIProfile "p1" (saveAPIProfile profileExample dbExample).1).2
  = Some profileExample.
Proof.
  exact (proj1 (proj2 (profiles_save_delete profileExample "p1" dbExample
                         eq_refl eq_refl))).
Defined.

Lemma setKeySelectedProfile_checks_profile_witness :
  setKeySelectedProfile "2026-11-02" "k" (Some "nowhere") dbExample
  = (dbExample, false).
Proof.
  exact (setKeySelectedProfile_checks_profile "2026-11-02" "k" (Some "nowhere")
           dbExample (Redis.of_raw keyExample 5
                        {| Raw.date := "2026-11-02"; Raw.count := 0 |})
           dbExample eq_refl eq_refl eq_refl).
Defined.

Lemma modelConfigs_save_delete_witness :
  (getModelConfigs (saveModelConfig "gemini" configExample dbExample).1).2 !! "gemini"
  = Some configExample.
Proof.
  exact (proj1 (proj2 (modelConfigs_save_delete "gemini" configExample dbExample
                         eq_refl))).
Defined.


Lemma uncounted_request_costs_nothing_witness :
  (handler envExample (post "/v1/chat/completions" assistantTurn) dbExample).1
  = dbExample.
Proof.
  exact (proj1 (uncounted_request_costs_nothing envExample
                  (post "/v1/chat/completions" assistantTurn) dbExample dbExample "k"
                  (Redis.of_raw keyExample 5
                     {| Raw.date := "2026-11-02"; Raw.count := 0 |})
                  eq_refl eq_refl eq_refl eq_refl eq_refl) eq_refl).
Defined.


Lemma injectSystemPrompt_idempotent_witness :
  injectSystemPrompt "/v1/chat/completions" (Some "Be brief.") chatBodyInjected
  = Ok chatBodyInjected.
Proof.
  exact (proj1 (injectSystemPrompt_idempotent "/v1/chat/completions" "Be brief."
                  chatBody chatBodyInjected ltac:(vm_compute; reflexivity))).
Defined.

Lemma rewriteModelNames_passthrough_witness :
  rewriteModelNames "upstream-model" "Public-Model" "data: hello"
  = "data: hello".
Proof.
  exact (rewriteModelNames_passthrough "upstream-model" "Public-Model" "data: hello"
           eq_refl eq_refl eq_refl eq_refl eq_refl eq_refl eq_refl).
Defined.

Lemma rewriteModelNames_masks_witness :
  rewriteModelNames "upstream-model" "Sonnet-Max" "I am upstream-model, a Haiku"
  = "I am Opus-Max, a Opus" ∧
  includes (rewriteModelNames "upstream-model" "Sonnet-Max" "I am upstream-model, a Haiku")
    "Haiku" = false ∧
  includes (rewriteModelNames "upstream-model" "Sonnet-Max" "I am upstream-model, a Haiku")
    "Sonnet" = false.
Proof.
  exact (rewriteModelNames_masks "upstream-model" "Sonnet-Max"
           "I am upstream-model, a Haiku" eq_refl eq_refl).
Defined.

Lemma interleaving_keeps_limit_witness :
  ∃ data' usage',
    keys (run "2026-11-02" "k" [0; 1; 0; 1]%nat [Start; Start] lastSlotDb).1 !! "k"
      = Some data' ∧
    Raw.daily_limit data' = Some 5 ∧
    Raw.usage_today data' = Some usage' ∧ Raw.date usage' = "2026-11-02" ∧
    4 ≤ Raw.count usage' ≤ 5.
Proof.
  exact (proj1 (interleaving_keeps_limit "2026-11-02" "k" lastSlotDb lastSlot 5
                  {| Raw.date := "2026-11-02"; Raw.count := 4 |} 2
                  [0; 1; 0; 1]%nat eq_refl eq_refl eq_refl eq_refl eq_refl
                  ltac:(vm_compute; discriminate))).
Defined.

Lemma key_lifecycle_witness :
  let created := (createKey "2026-11-02" "k" "2027-01-01" None dbExample).1 in
  handler envExample (post "/v1/chat/completions" userTurn)
    (deleteKey "k" created).1
  = ((deleteKey "k" created).1, inl (Json 401 {[ "error" := VStr "Invalid API key" ]})).
Proof.
  exact (proj2 (key_lifecycle envExample (post "/v1/chat/completions" userTurn)
                  dbExample "k" "2027-01-01" None
                  eq_refl eq_refl eq_refl eq_refl eq_refl eq_refl
                  ltac:(vm_compute; reflexivity))).
Defined.

Lemma selected_profile_routes_witness :
  (setKeySelectedProfile "2026-11-02" "k" (Some "p1") dbWithProfile).2 = true.
Proof.
  exact (proj1 (selected_profile_routes envExample "/v1/chat/completions"
                  "2026-11-02" "k" "p1" profileExample (Some settingsExample)
                  dbWithProfile dbWithProfile
                  (Redis.of_raw keyExample 5
                     {| Raw.date := "2026-11-02"; Raw.count := 0 |})
                  eq_refl eq_refl eq_refl ltac:(discriminate) eq_refl)).
Defined.

Lemma forwarded_request_witness :
  upstreamBody forwardExample !! "model" = Some (VStr "upstream-model") ∧
  chatBody !! "model" = Some (VStr "Public-Model").
Proof.
  destruct (forwarded_request envExample "/v1/chat/completions"
              (Redis.of_raw keyExample 5
                 {| Raw.date := "2026-11-02"; Raw.count := 0 |})
              chatBody dbExample dbExample forwardExample
              ltac:(vm_compute; reflexivity)) as (_ & Hd & Hm & _).
  split; [exact Hm|exact Hd].
Defined.

End Samples.
